(** * Masterblog API: the post store of [backend/backend_app.py]

    The Flask application keeps its posts in the module-level list [POSTS]
    and serves five handlers on it: create and list ([get_posts]), delete
    ([delete_post]), update ([update_post]) and search ([post_search]).

    The development has three parts:
    - [Py]: the Python values a JSON body decodes to, and the built-in
      operations the handlers call on them ([==], [<], [in], subscripting,
      [int], [max], [sorted], [list.remove]), each with the exceptions it
      can raise;
    - the handlers, written in a small state-and-exception monad over the
      list [POSTS];
    - the properties of the handlers.

    Strings are sequences of bytes (the UTF-8 encoding of the Python text):
    equality, substring search and lexicographic order on the encoding agree
    with those on code points.  Integers are unbounded, as in Python; the
    limit CPython puts on the length of a decimal numeral is in [py_int],
    where the program reads one from a request.  JSON numbers with a
    fraction or an exponent are not represented. *)

From Stdlib Require Import ZArith String Ascii.
From stdpp Require Import gmap strings list fin_maps pretty sorting.

Open Scope Z_scope.
Open Scope string_scope.

(* ===================================================================== *)
(** * Python values and built-ins *)
(* ===================================================================== *)

Module Py.

(** What [json.loads] produces: [None], [bool], [int], [str], [list] and
    [dict] with string keys. *)
#[warnings="-register-all"]
Inductive value : Type :=
  | JNull
  | JBool (b : bool)
  | JInt (z : Z)
  | JStr (s : string)
  | JList (l : list value)
  | JDict (d : gmap string value).

(** The exceptions the handlers can meet; none of them is caught, except
    [KeyError] inside [find_post_by_id]. *)
Inductive exn : Type := KeyError | TypeError | ValueError.

Inductive result (A : Type) : Type :=
  | Ok (a : A)
  | Raise (e : exn).
Arguments Ok {A} a.
Arguments Raise {A} e.

#[export] Instance result_ret : MRet result := fun A a => Ok a.
#[export] Instance result_bind : MBind result := fun A B f m =>
  match m with Ok a => f a | Raise e => Raise e end.
#[export] Instance result_fmap : FMap result := fun A B f m =>
  match m with Ok a => Ok (f a) | Raise e => Raise e end.

(** ** Truth values *)

(** [bool(s)] of a string, and of the [None]-or-string that
    [request.args.get] returns. *)
Definition str_truthy (s : string) : bool :=
  match s with EmptyString => false | String _ _ => true end.

Definition arg_truthy (a : option string) : bool :=
  match a with Some s => str_truthy s | None => false end.

(** [bool(d)] of a dict: false exactly on the empty dict. *)
Definition dict_truthy (d : gmap string value) : bool :=
  negb (bool_decide (size d = 0%nat)).

(** ** Equality [a == b] *)

(** [bool] is a subclass of [int]: [True == 1] and [False == 0]. *)
Definition as_int (v : value) : option Z :=
  match v with
  | JBool b => Some (Z.b2z b)
  | JInt z => Some z
  | _ => None
  end.

Fixpoint py_eq (a b : value) {struct a} : bool :=
  match a, b with
  | JNull, JNull => true
  | JBool x, JBool y => bool_decide (Z.b2z x = Z.b2z y)
  | JBool x, JInt y => bool_decide (Z.b2z x = y)
  | JInt x, JBool y => bool_decide (x = Z.b2z y)
  | JInt x, JInt y => bool_decide (x = y)
  | JStr x, JStr y => bool_decide (x = y)
  | JList l1, JList l2 =>
      (fix eq_items (l1 l2 : list value) : bool :=
         match l1, l2 with
         | [], [] => true
         | x :: l1, y :: l2 => py_eq x y && eq_items l1 l2
         | _, _ => false
         end) l1 l2
  | JDict d1, JDict d2 =>
      bool_decide (size d1 = size d2) &&
      map_fold (fun k x acc =>
                  match d2 !! k with
                  | Some y => py_eq x y && acc
                  | None => false
                  end) true d1
  | _, _ => false
  end.

(** ** Order [a < b] *)

(** Defined between numbers, between strings and between lists; every
    other pair raises [TypeError].  Lists compare at the first position
    where the items are not equal, a proper prefix being smaller. *)
Fixpoint py_lt (a b : value) {struct a} : result bool :=
  match a, b with
  | JStr x, JStr y => Ok (String.ltb x y)
  | JList l1, JList l2 =>
      (fix lt_items (l1 l2 : list value) : result bool :=
         match l1, l2 with
         | [], [] => Ok false
         | [], _ :: _ => Ok true
         | _ :: _, [] => Ok false
         | x :: l1, y :: l2 =>
             if py_eq x y then lt_items l1 l2 else py_lt x y
         end) l1 l2
  | _, _ =>
      match as_int a, as_int b with
      | Some x, Some y => Ok (bool_decide (x < y))
      | _, _ => Raise TypeError
      end
  end.

(** [a > b] on these types is [b < a]. *)
Definition py_gt (a b : value) : result bool := py_lt b a.

(** ** Membership [s in v] for a string [s] *)

(** [needle in hay] on strings: [needle] occurs as a substring. *)
Fixpoint contains (needle hay : string) : bool :=
  String.prefix needle hay ||
  match hay with
  | EmptyString => false
  | String _ hay' => contains needle hay'
  end.

Definition py_in (s : string) (v : value) : result bool :=
  match v with
  | JStr hay => Ok (contains s hay)
  | JList l => Ok (existsb (fun x => py_eq x (JStr s)) l)
  | JDict d => Ok (bool_decide (is_Some (d !! s)))
  | _ => Raise TypeError
  end.

(** ** Subscripting with a string key *)

(** [v[k]]: [KeyError] on a dict without the key, [TypeError] on
    anything that is not a dict (a list or a string wants an integer
    index, the others cannot be subscripted). *)
Definition getitem (v : value) (k : string) : result value :=
  match v with
  | JDict d => match d !! k with Some x => Ok x | None => Raise KeyError end
  | _ => Raise TypeError
  end.

(** [v[k] = x] *)
Definition setitem (v : value) (k : string) (x : value)
  : result (gmap string value) :=
  match v with
  | JDict d => Ok (<[k := x]> d)
  | _ => Raise TypeError
  end.

(** [d.get(k, default)] *)
Definition dict_get (d : gmap string value) (k : string) (default : value)
  : value :=
  match d !! k with Some x => x | None => default end.

(** ** [a + 1] *)
Definition py_add (a b : value) : result value :=
  match as_int a, as_int b with
  | Some x, Some y => Ok (JInt (x + y))
  | _, _ => Raise TypeError
  end.

(** ** [int(s)] on a string *)

(** Optional white space around, an optional sign, then decimal digits in
    groups separated by single underscores, and no more digits than
    CPython allows in a decimal numeral.  This is [int] on ASCII text: the
    digits and spaces of other scripts, which [int] also accepts, are not
    recognised, so that [int] answers [n] wherever [py_int] does. *)
Definition is_space (c : ascii) : bool :=
  let n := nat_of_ascii c in
  ((9 <=? n) && (n <=? 13) || (n =? 32))%nat.

Definition digit_val (c : ascii) : option Z :=
  let n := nat_of_ascii c in
  if ((48 <=? n) && (n <=? 57))%nat then Some (Z.of_nat n - 48) else None.

Fixpoint lstrip (l : list ascii) : list ascii :=
  match l with
  | c :: l' => if is_space c then lstrip l' else l
  | [] => []
  end.

Definition strip (l : list ascii) : list ascii :=
  rev (lstrip (rev (lstrip l))).

(** [digits acc us l]: the rest of the numeral, [acc] the value read so
    far and [us] telling that the previous character was an underscore. *)
Fixpoint digits (acc : Z) (us : bool) (l : list ascii) : option Z :=
  match l with
  | [] => if us then None else Some acc
  | c :: l' =>
      if Ascii.eqb c "_"
      then (if us then None else digits acc true l')
      else match digit_val c with
           | Some d => digits (10 * acc + d) false l'
           | None => None
           end
  end.

Definition unsigned (l : list ascii) : option Z :=
  match l with
  | c :: l' =>
      match digit_val c with
      | Some d => digits d false l'
      | None => None
      end
  | [] => None
  end.

(** The default of [sys.int_max_str_digits]: [int] raises [ValueError] on
    a numeral with more digits, leading zeros counted and underscores
    not. *)
Definition max_str_digits : nat := 4300.

Definition digit_count (l : list ascii) : nat :=
  length (List.filter (fun c => bool_decide (is_Some (digit_val c))) l).

Definition py_int (s : string) : result Z :=
  let l := strip (list_ascii_of_string s) in
  let r := match l with
           | c :: l' =>
               if Ascii.eqb c "-" then Z.opp <$> unsigned l'
               else if Ascii.eqb c "+" then unsigned l'
               else unsigned l
           | [] => None
           end in
  match r with
  | Some n =>
      if (max_str_digits <? digit_count l)%nat then Raise ValueError
      else Ok n
  | None => Raise ValueError
  end.

(** ** [max] of the values an iteration yields *)

(** [max] keeps the first item and replaces it by each later item that is
    [>] the current one; [ValueError] on an empty iteration.  The items
    are produced one at a time by [item], as a generator does. *)
Fixpoint max_from {A : Type} (item : A → result value) (cur : value)
    (l : list A) : result value :=
  match l with
  | [] => Ok cur
  | a :: l' =>
      v ← item a;
      b ← py_gt v cur;
      max_from item (if b : bool then v else cur) l'
  end.

Definition py_max {A : Type} (item : A → result value) (l : list A)
  : result value :=
  match l with
  | [] => Raise ValueError
  | a :: l' => cur ← item a; max_from item cur l'
  end.

(** ** [sorted(l, key=...)] *)

(** [sorted] first computes the key of every item, then sorts on the keys
    with [<] alone, and it is stable.  The model is an insertion sort:
    an item goes in front of the first sorted item that is not smaller,
    so items with equal keys keep their order.  A comparison that raises
    ends the sort with that exception.  On keys that can all be compared
    every stable sort gives this result; which comparison raises first on
    other keys is a matter of the algorithm, and nothing below depends on
    it. *)
Fixpoint insert_sorted {A : Type} (x : value * A) (l : list (value * A))
  : result (list (value * A)) :=
  match l with
  | [] => Ok [x]
  | y :: l' =>
      b ← py_lt y.1 x.1;
      if b : bool then (r ← insert_sorted x l'; Ok (y :: r))
      else Ok (x :: y :: l')
  end.

Fixpoint sort_keyed {A : Type} (l : list (value * A))
  : result (list (value * A)) :=
  match l with
  | [] => Ok []
  | x :: l' => r ← sort_keyed l'; insert_sorted x r
  end.

Fixpoint with_keys {A : Type} (key : A → result value) (l : list A)
  : result (list (value * A)) :=
  match l with
  | [] => Ok []
  | a :: l' => k ← key a; r ← with_keys key l'; Ok ((k, a) :: r)
  end.

Definition sorted {A : Type} (key : A → result value) (l : list A)
  : result (list A) :=
  kl ← with_keys key l;
  r ← sort_keyed kl;
  Ok (r.*2).

(** ** [l.remove(x)] on a list of dicts *)

(** Removes the first item equal ([==]) to [x]; [ValueError] when there
    is none. *)
Fixpoint list_remove (x : gmap string value) (l : list (gmap string value))
  : result (list (gmap string value)) :=
  match l with
  | [] => Raise ValueError
  | y :: l' =>
      if py_eq (JDict y) (JDict x) then Ok l'
      else (r ← list_remove x l'; Ok (y :: r))
  end.

(** ** A size on values *)

(** It bounds every item of a list and every entry of a dict, and gives
    the induction on values with nested lists and dicts. *)
Fixpoint vsize (v : value) : nat :=
  match v with
  | JList l => S (foldr (fun x n => vsize x + n)%nat 0%nat l)
  | JDict d => S (map_fold (fun _ x n => vsize x + n)%nat 0%nat d)
  | _ => 1%nat
  end.

End Py.
Import Py.

(* ===================================================================== *)
(** * The application *)
(* ===================================================================== *)

(** A post is a dict; the store is the list [POSTS]. *)
Abbreviation post := (gmap string value).
Abbreviation store := (list (gmap string value)).

Definition POSTS : store :=
  [ {[ "post_id" := JInt 1; "title" := JStr "First post";
       "content" := JStr "This is the first post." ]};
    {[ "post_id" := JInt 2; "title" := JStr "Second post";
       "content" := JStr "This is the second post." ]} ].

(** What a handler reads of the request: the method, the decoded JSON body
    ([request.get_json()]) and the query string ([request.args], whose [get]
    is a lookup giving [None] for a missing parameter). *)
Record request : Type := Request {
  method : string;
  get_json : value;
  args : gmap string string
}.

(** What a handler returns: [jsonify body] and the status code. *)
Record response : Type := Response {
  body : value;
  status : Z
}.

Definition jsonify_posts (l : list post) : value := JList (JDict <$> l).

Definition error (msg : string) : value := JDict {[ "error" := JStr msg ]}.
Definition message (msg : string) : value := JDict {[ "message" := JStr msg ]}.

(** ** Handlers run on the store and may raise *)

(** A computation gets the current [POSTS] and gives back a result, or the
    exception it raised, together with [POSTS] as it left it. *)
Definition M (A : Type) : Type := store → result A * store.

Definition ret {A : Type} (a : A) : M A := fun s => (Ok a, s).

Definition bind {A B : Type} (m : M A) (f : A → M B) : M B := fun s =>
  match m s with
  | (Ok a, s') => f a s'
  | (Raise e, s') => (Raise e, s')
  end.

Definition read : M store := fun s => (Ok s, s).
Definition write (s' : store) : M unit := fun _ => (Ok (), s').
Definition lift {A : Type} (r : result A) : M A := fun s => (r, s).

Declare Scope handler_scope.
Delimit Scope handler_scope with handler.
Notation "'let!' x := m 'in' k" := (bind m (fun x => k))
  (at level 10, x name, m at level 100, k at level 200) : handler_scope.
Notation "m ;; k" := (bind m (fun _ => k))
  (at level 100, k at level 200, right associativity) : handler_scope.
Open Scope handler_scope.

(** ** Helpers of the source *)

Definition validate_post_data (data : value) : result bool :=
  t ← py_in "title" data;
  if negb t then Ok false
  else c ← py_in "content" data;
       if negb c then Ok false else Ok true.

(** The loop of [find_existing_post] over [POSTS].  The title test comes
    first, and the content test only when the titles are equal. *)
Fixpoint find_existing_post (posts : store) (p : value)
  : result (option post) :=
  match posts with
  | [] => Ok None
  | existing_post :: rest =>
      t ← getitem (JDict existing_post) "title";
      t' ← getitem p "title";
      if py_eq t t' then
        c ← getitem (JDict existing_post) "content";
        c' ← getitem p "content";
        if py_eq c c' then Ok (Some existing_post)
        else find_existing_post rest p
      else find_existing_post rest p
  end.

(** [post['post_id'] == post_id], a [KeyError] being caught and passed. *)
Definition has_id (p : post) (post_id : Z) : bool :=
  match p !! "post_id" with
  | Some v => py_eq v (JInt post_id)
  | None => false
  end.

(** The post returned is an element of [POSTS], which the callers mutate or
    remove: the result is its position together with the dict. *)
Fixpoint find_post_by_id (posts : store) (post_id : Z)
  : option (nat * post) :=
  match posts with
  | [] => None
  | p :: rest =>
      if has_id p post_id then Some (0%nat, p)
      else prod_map S id <$> find_post_by_id rest post_id
  end.

Definition is_valid_sort_field (field : string) : bool :=
  bool_decide (field ∈ ["title"; "content"]).

Definition is_valid_sort_direction (direction : string) : bool :=
  bool_decide (direction ∈ ["asc"; "desc"]).

Definition sort_posts (posts : store) (field direction : option string)
  : result (list post) :=
  if bool_decide (field = Some "title") then
    sorted_posts ← sorted (fun p => getitem (JDict p) "title") posts;
    Ok (if bool_decide (direction = Some "desc")
        then reverse sorted_posts else sorted_posts)
  else if bool_decide (field = Some "content") then
    sorted_posts ← sorted (fun p => getitem (JDict p) "content") posts;
    Ok (if bool_decide (direction = Some "desc")
        then reverse sorted_posts else sorted_posts)
  else Ok posts.

(** A list comprehension [[p for p in posts if test p]]. *)
Fixpoint comprehension (test : post → result bool) (posts : list post)
  : result (list post) :=
  match posts with
  | [] => Ok []
  | p :: rest =>
      b ← test p;
      r ← comprehension test rest;
      Ok (if b : bool then p :: r else r)
  end.

(** ** The five handlers *)

(** [POST /api/posts] *)
Definition create_post (new_post : value) : M response :=
  let! valid := lift (validate_post_data new_post) in
  if negb valid then
    ret (Response
           (error "Invalid post data - either 'title' or 'content' is missing.")
           400)
  else
    let! posts := read in
    let! existing_post := lift (find_existing_post posts new_post) in
    if from_option dict_truthy false existing_post then
      ret (Response (error "Post already exists") 409)
    else
      let! m := lift (py_max (fun p => getitem (JDict p) "post_id") posts) in
      let! new_id := lift (py_add m (JInt 1)) in
      let! new_post := lift (setitem new_post "post_id" new_id) in
      let! posts := read in
      write (posts ++ [new_post]);;
      ret (Response (JDict new_post) 201).

(** [GET /api/posts] *)
Definition list_posts (sort_field sort_direction : option string)
  : M response :=
  if arg_truthy sort_field
     && negb (from_option is_valid_sort_field false sort_field) then
    ret (Response
           (error ("Invalid sort field: " +:+ default "" sort_field)) 400)
  else if arg_truthy sort_direction
     && negb (from_option is_valid_sort_direction false sort_direction) then
    ret (Response
           (error ("Invalid sort direction: " +:+ default "" sort_direction))
           400)
  else
    let! posts := read in
    let! sorted_posts := lift (sort_posts posts sort_field sort_direction) in
    ret (Response (jsonify_posts sorted_posts) 200).

Definition get_posts (req : request) : M response :=
  if bool_decide (method req = "POST") then create_post (get_json req)
  else list_posts (args req !! "sort") (args req !! "direction").

(** [DELETE /api/posts/<int:post_id>] *)
Definition delete_post (post_id : Z) : M response :=
  let! posts := read in
  match find_post_by_id posts post_id with
  | None => ret (Response (error "Post not found") 404)
  | Some (_, p) =>
      let! posts' := lift (list_remove p posts) in
      write posts';;
      ret (Response
             (message ("Post with id " +:+ pretty post_id
                       +:+ " has been deleted successfully."))
             200)
  end.

(** [post[k] = x] on the post at position [i] of [POSTS]. *)
Definition assign (i : nat) (k : string) (x : value) : M unit := fun s =>
  (Ok (), alter (insert k x) i s).

(** [PUT /api/posts/<int:post_id>] *)
Definition update_post (post_id : Z) (req : request) : M response :=
  let! posts := read in
  match find_post_by_id posts post_id with
  | None => ret (Response (error "Post not found") 404)
  | Some (i, _) =>
      let data := get_json req in
      let! has_title := lift (py_in "title" data) in
      (if has_title : bool
       then let! x := lift (getitem data "title") in assign i "title" x
       else ret ());;
      let! has_content := lift (py_in "content" data) in
      (if has_content : bool
       then let! x := lift (getitem data "content") in assign i "content" x
       else ret ());;
      ret (Response
             (message ("Post with id " +:+ pretty post_id
                       +:+ " has been updated successfully."))
             200)
  end.

(** [GET /api/posts/search] *)
Definition post_search (req : request) : M response :=
  let post_id := args req !! "post_id" in
  let content := args req !! "content" in
  let title := args req !! "title" in
  let! posts := read in
  let! filtered_posts :=
    if arg_truthy post_id then
      let! n := lift (py_int (default "" post_id)) in
      match find_post_by_id posts n with
      | Some (_, p) => ret (if dict_truthy p then [p] else [])
      | None => ret []
      end
    else
      let! filtered_posts :=
        if arg_truthy content then
          lift (comprehension
                  (fun p => py_in (default "" content)
                                  (dict_get p "content" (JStr "")))
                  posts)
        else ret [] in
      if arg_truthy title then
        lift (comprehension
                (fun p => py_in (default "" title)
                                (dict_get p "title" (JStr "")))
                posts)
      else ret filtered_posts
  in
  ret (Response (jsonify_posts filtered_posts) 200).

(** ** The application as a whole *)

(** One request to one of the four routes. *)
Inductive call : Type :=
  | Posts (req : request)
  | Delete (post_id : Z)
  | Update (post_id : Z) (req : request)
  | Search (req : request).

Definition serve (c : call) : M response :=
  match c with
  | Posts req => get_posts req
  | Delete post_id => delete_post post_id
  | Update post_id req => update_post post_id req
  | Search req => post_search req
  end.

(** [POSTS] after a sequence of requests, whatever each one answered. *)
Fixpoint run (calls : list call) (posts : store) : store :=
  match calls with
  | [] => posts
  | c :: calls' => run calls' (serve c posts).2
  end.

(* ===================================================================== *)
(** * Notions used in the statements *)
(* ===================================================================== *)

(** The integer id of a post, when it has one. *)
Definition post_id_of (p : post) : option Z :=
  match p !! "post_id" with
  | Some (JInt n) => Some n
  | _ => None
  end.

(** Every post has an integer id and no two posts have the same one. *)
Definition unique_ids (posts : store) : Prop :=
  Forall is_Some (post_id_of <$> posts) ∧ NoDup (post_id_of <$> posts).

#[global] Instance unique_ids_dec posts : Decision (unique_ids posts).
Proof. unfold unique_ids. apply _. Defined.

(** [n] is the greatest id of [posts]. *)
Definition max_id (posts : store) (n : Z) : Prop :=
  Some n ∈ post_id_of <$> posts
  ∧ ∀ m, Some m ∈ post_id_of <$> posts → (m ≤ n)%Z.

(** Every post has the two keys the creation checks. *)
Definition has_fields (posts : store) : Prop :=
  Forall (fun p => is_Some (p !! "title") ∧ is_Some (p !! "content")) posts.

#[global] Instance has_fields_dec posts : Decision (has_fields posts).
Proof. unfold has_fields. apply _. Defined.

(** The title and the content of every post are text, as in the data model
    of the blog ([d.get(k, '')] being text also when the key is missing). *)
Definition is_text (v : value) : bool :=
  match v with JStr _ => true | _ => false end.

Definition text_fields (posts : store) : Prop :=
  Forall (fun p => is_text (dict_get p "title" (JStr "")) = true
                   ∧ is_text (dict_get p "content" (JStr "")) = true) posts.

#[global] Instance text_fields_dec posts : Decision (text_fields posts).
Proof. unfold text_fields. apply _. Defined.

(** The text [field] of [p] contains [needle]. *)
Definition field_contains (field needle : string) (p : post) : bool :=
  match p !! field with
  | Some (JStr hay) => contains needle hay
  | _ => false
  end.

(** The [field] of [p] is equal ([==]) to [k]: [p] is tied with the posts
    whose field is [k] when sorting on [field]. *)
Definition field_tied (field : string) (k : value) (p : post) : bool :=
  match p !! field with
  | Some v => py_eq v k
  | None => false
  end.

(** The id a creation assigns: one more than the [max] of the ids. *)
Definition next_id (posts : store) : result value :=
  m ← py_max (fun p => getitem (JDict p) "post_id") posts;
  py_add m (JInt 1).

(** The answers of the handlers. *)
Definition ok_posts (l : list post) : response :=
  Response (jsonify_posts l) 200.

Definition validation_error : response :=
  Response
    (error "Invalid post data - either 'title' or 'content' is missing.") 400.

Definition duplicate_error : response :=
  Response (error "Post already exists") 409.

Definition created (p : post) : response := Response (JDict p) 201.

(** The query string without the parameters given an empty value. *)
Definition without_empty (a : gmap string string) : gmap string string :=
  filter (fun kv => kv.2 ≠ "") a.

(** The other answers of the handlers. *)
Definition not_found : response := Response (error "Post not found") 404.

Definition deleted (post_id : Z) : response :=
  Response
    (message ("Post with id " +:+ pretty post_id
              +:+ " has been deleted successfully.")) 200.

Definition updated (post_id : Z) : response :=
  Response
    (message ("Post with id " +:+ pretty post_id
              +:+ " has been updated successfully.")) 200.

Definition invalid_sort_field (field : string) : response :=
  Response (error ("Invalid sort field: " +:+ field)) 400.

Definition invalid_sort_direction (direction : string) : response :=
  Response (error ("Invalid sort direction: " +:+ direction)) 400.

(** The body is a JSON object. *)
Definition is_object (v : value) : bool :=
  match v with JDict _ => true | _ => false end.

(** [s in v] is defined: [v] is a string, a list or a dict. *)
Definition is_container (v : value) : bool :=
  match v with JStr _ | JList _ | JDict _ => true | _ => false end.

(** The text under [field], for a post where it is text. *)
Definition text_of (field : string) (p : post) : string :=
  match p !! field with
  | Some (JStr s) => s
  | _ => ""
  end.

(** The posts where [field] is text. *)
Definition text_field (field : string) (posts : store) : Prop :=
  Forall (fun p => ∃ s, p !! field = Some (JStr s)) posts.

(* ===================================================================== *)
(** * Properties of the built-ins *)
(* ===================================================================== *)

Section value_induction.

Lemma vsize_item (l : list value) (x : value) :
  x ∈ l → (vsize x < vsize (JList l))%nat.
Proof.
  induction 1 as [x l|x y l _ IH]; simpl in *; lia.
Qed.

Lemma vsize_entry (d : gmap string value) (k : string) (x : value) :
  d !! k = Some x → (vsize x < vsize (JDict d))%nat.
Proof.
  intros Hk. simpl.
  rewrite (map_fold_delete_L _ _ k x d); [lia | intros; lia | done].
Qed.

Variable P : value → Prop.
Hypothesis Hnull : P JNull.
Hypothesis Hbool : ∀ b, P (JBool b).
Hypothesis Hint : ∀ z, P (JInt z).
Hypothesis Hstr : ∀ s, P (JStr s).
Hypothesis Hlist : ∀ l, Forall P l → P (JList l).
Hypothesis Hdict : ∀ d, map_Forall (fun _ => P) d → P (JDict d).

(** Induction on a value, with the property at hand for every item of a
    list and every entry of a dict. *)
Lemma value_nested_ind (v : value) : P v.
Proof.
  remember (vsize v) as n eqn:Hn. revert v Hn.
  induction (lt_wf n) as [n _ IH]. intros v ->.
  destruct v as [| | | |l|d]; auto.
  - apply Hlist, Forall_forall. intros x Hx.
    apply (IH (vsize x)); [by apply vsize_item | done].
  - apply Hdict. intros k x Hk.
    apply (IH (vsize x)); [by eapply vsize_entry | done].
Qed.

End value_induction.

(** [==] is reflexive on JSON values. *)
Lemma py_eq_refl (v : value) : py_eq v v = true.
Proof.
  induction v as [|b|z|s|l IH|d IH] using value_nested_ind; simpl;
    [done | by apply bool_decide_eq_true.. | | ].
  - induction IH as [|x l Hx _ IHl]; [done|]. by rewrite Hx.
  - rewrite bool_decide_eq_true_2 by done. simpl.
    cut (∀ m : gmap string value, m ⊆ d →
           map_fold (fun k x acc =>
                       match d !! k with
                       | Some y => py_eq x y && acc
                       | None => false
                       end) true m = true).
    { intros H. by apply H. }
    intros m. induction m as [|k x m Hk Hfirst IHm] using map_first_key_ind.
    + by rewrite map_fold_empty.
    + intros Hsub. rewrite map_fold_insert_first_key by done.
      assert (d !! k = Some x) as Hd.
      { eapply lookup_weaken; [apply lookup_insert_eq | done]. }
      rewrite Hd, (IH k x Hd), IHm; [done|].
      etrans; [by apply insert_subseteq | done].
Qed.

Lemma string_ltb_irrefl (s : string) : String.ltb s s = false.
Proof.
  unfold String.ltb. pose proof (String.compare_antisym s s) as H.
  by destruct (String.compare s s).
Qed.

(** Two values equal to a third one are not strictly ordered. *)
Lemma py_lt_tied (k a b : value) :
  py_eq a k = true → py_eq b k = true → py_lt a b ≠ Ok true.
Proof.
  revert a b.
  induction k as [|kb|kz|ks|kl IH|kd _] using value_nested_ind;
    intros [| | | |la|] [| | | |lb|]; simpl; try done;
    rewrite ?bool_decide_eq_true; intros; simplify_eq;
    try (intros [=Hlt]; apply bool_decide_eq_true in Hlt; lia).
  - by rewrite string_ltb_irrefl.
  - rename H into Ha, H0 into Hb. revert la lb Ha Hb.
    induction IH as [|k kl Hk _ IHl]; intros [|a la] [|b lb]; try done.
    intros [Ha Hla]%andb_prop [Hb Hlb]%andb_prop.
    destruct (py_eq a b); [by apply IHl | by apply Hk].
Qed.

(** The empty string is in no text but the empty needle is in all. *)
Lemma contains_empty_hay (needle : string) :
  contains needle "" = bool_decide (needle = "").
Proof. by destruct needle. Qed.

(** ** [sorted] is a stable permutation *)

Section sorted.
Context {A : Type}.
Implicit Types (x : value * A) (l r : list (value * A)).

Lemma insert_sorted_perm x l r :
  insert_sorted x l = Ok r → r ≡ₚ x :: l.
Proof.
  revert r. induction l as [|y l IH]; intros r; simpl.
  - by intros [= <-].
  - destruct (py_lt y.1 x.1) as [[]|]; simpl; [|by intros [= <-]|done].
    destruct (insert_sorted x l) as [r'|]; simpl; [|done].
    intros [= <-]. rewrite (IH r' eq_refl). apply Permutation_swap.
Qed.

Lemma sort_keyed_perm l r : sort_keyed l = Ok r → r ≡ₚ l.
Proof.
  revert r. induction l as [|x l IH]; intros r; simpl.
  - by intros [= <-].
  - destruct (sort_keyed l) as [r'|]; simpl; [|done].
    intros Hr%insert_sorted_perm. by rewrite Hr, (IH r' eq_refl).
Qed.

(** [Q] holds of keys that are never strictly ordered among themselves:
    the items with such keys keep their order. *)
Variable Q : value → bool.
Hypothesis Q_tied : ∀ a b, Q a = true → Q b = true → py_lt a b ≠ Ok true.

Lemma insert_sorted_stable x l r :
  insert_sorted x l = Ok r →
  filter (fun y => Q y.1) r = filter (fun y => Q y.1) (x :: l).
Proof.
  revert r. induction l as [|y l IH]; intros r; simpl.
  - by intros [= <-].
  - destruct (py_lt y.1 x.1) as [[]|] eqn:Hlt; simpl;
      [|by intros [= <-]|done].
    destruct (insert_sorted x l) as [r'|]; simpl; [|done].
    intros [= <-]. rewrite filter_cons, (IH r' eq_refl), !filter_cons.
    destruct (decide (Q y.1)) as [Hy|]; [|done].
    destruct (decide (Q x.1)) as [Hx|]; [|done].
    destruct (Q_tied y.1 x.1); by try apply Is_true_eq_true.
Qed.

Lemma sort_keyed_stable l r :
  sort_keyed l = Ok r →
  filter (fun y => Q y.1) r = filter (fun y => Q y.1) l.
Proof.
  revert r. induction l as [|x l IH]; intros r; simpl.
  - by intros [= <-].
  - destruct (sort_keyed l) as [r'|]; simpl; [|done].
    intros Hr%insert_sorted_stable.
    by rewrite Hr, !filter_cons, (IH r' eq_refl).
Qed.

End sorted.

Lemma with_keys_snd {A : Type} (key : A → result value) (l : list A) kl :
  with_keys key l = Ok kl → kl.*2 = l ∧ Forall (fun y => key y.2 = Ok y.1) kl.
Proof.
  revert kl. induction l as [|a l IH]; intros kl; simpl.
  - by intros [= <-].
  - destruct (key a) as [k|] eqn:Hk; simpl; [|done].
    destruct (with_keys key l) as [kl'|]; simpl; [|done].
    intros [= <-]. destruct (IH kl' eq_refl) as [Hl ?].
    split; [by rewrite fmap_cons, Hl | by constructor].
Qed.

Lemma sorted_perm {A : Type} (key : A → result value) (l r : list A) :
  sorted key l = Ok r → r ≡ₚ l.
Proof.
  unfold sorted. destruct (with_keys key l) as [kl|] eqn:Hkl; simpl; [|done].
  destruct (sort_keyed kl) as [r'|] eqn:Hr; simpl; [|done].
  intros [= <-]. apply with_keys_snd in Hkl as [<- _].
  by rewrite (sort_keyed_perm _ _ Hr).
Qed.

(** The items whose key satisfies [Q] come out of [sorted] in the order
    they went in, when no two such keys are strictly ordered. *)
Lemma sorted_stable {A : Type} (key : A → result value) (Q : value → bool)
    (T : A → bool) (l r : list A) :
  (∀ a b, Q a = true → Q b = true → py_lt a b ≠ Ok true) →
  (∀ a k, key a = Ok k → T a = Q k) →
  sorted key l = Ok r →
  filter (fun a => T a) r = filter (fun a => T a) l.
Proof.
  intros HQ HT. unfold sorted.
  destruct (with_keys key l) as [kl|] eqn:Hkl; simpl; [|done].
  destruct (sort_keyed kl) as [r'|] eqn:Hr; simpl; [|done].
  intros [= <-]. apply with_keys_snd in Hkl as [<- Hkeys].
  assert (Forall (fun y => key y.2 = Ok y.1) r') as Hkeys'.
  { by rewrite (sort_keyed_perm _ _ Hr). }
  assert (∀ m : list (value * A), Forall (fun y => key y.2 = Ok y.1) m →
            filter (fun a => T a) m.*2 = (filter (fun y => Q y.1) m).*2) as Hf.
  { induction 1 as [|y m Hy _ IHm]; [done|].
    rewrite fmap_cons, !filter_cons, IHm, (HT _ _ Hy).
    by destruct (decide (Q y.1)). }
  rewrite !Hf by done. f_equal. by apply sort_keyed_stable.
Qed.

(* ===================================================================== *)
(** * The handlers, step by step *)
(* ===================================================================== *)

(** Unfolds the monad of the handlers. *)
Ltac run_monad := unfold bind, lift, ret, read, write, assign in *; simpl in *.

(** ** Helpers *)

Lemma validate_post_data_dict (data : post) :
  validate_post_data (JDict data)
  = Ok (bool_decide (is_Some (data !! "title")
                     ∧ is_Some (data !! "content"))).
Proof.
  unfold validate_post_data. simpl.
  destruct (data !! "title"), (data !! "content"); simpl; f_equal;
    symmetry; first [by apply bool_decide_eq_true; eauto
                    | apply bool_decide_eq_false; by intros [[] []]].
Qed.

Lemma has_id_dict_truthy (p : post) (n : Z) :
  has_id p n = true → dict_truthy p = true.
Proof.
  unfold has_id, dict_truthy. intros Hid.
  apply negb_true_iff, bool_decide_eq_false. intros ->%map_size_empty_iff.
  by rewrite lookup_empty in Hid.
Qed.

Lemma has_id_post_id_of (p : post) (m n : Z) :
  post_id_of p = Some m → has_id p n = bool_decide (m = n).
Proof.
  unfold post_id_of, has_id.
  destruct (p !! "post_id") as [[]|]; try done. by intros [= ->].
Qed.

(** The post found is the first one of [POSTS] with that id. *)
Lemma find_post_by_id_Some (posts : store) (n : Z) i p :
  find_post_by_id posts n = Some (i, p) →
  posts !! i = Some p ∧ has_id p n = true
  ∧ ∀ j q, (j < i)%nat → posts !! j = Some q → has_id q n = false.
Proof.
  revert i. induction posts as [|q posts IH]; intros i; simpl; [done|].
  destruct (has_id q n) eqn:Hq.
  - intros [= <- <-]. repeat split; [done|]. lia.
  - destruct (find_post_by_id posts n) as [[i' p']|]; simpl; [|done].
    intros [= <- <-]. destruct (IH i' eq_refl) as (? & ? & Hlt).
    repeat split; [done..|]. intros [|j] q' Hj; simpl.
    + by intros [= <-].
    + apply Hlt. lia.
Qed.

(** It is what remains of [POSTS] filtered on the id, cut after one post. *)
Lemma find_post_by_id_filter (posts : store) (n : Z) :
  take 1 (filter (fun p => has_id p n) posts)
  = match find_post_by_id posts n with Some (_, p) => [p] | None => [] end.
Proof.
  induction posts as [|q posts IH]; simpl; [done|].
  rewrite filter_cons. destruct (has_id q n) eqn:Hq; simpl.
  - by rewrite take_0.
  - rewrite IH. by destruct (find_post_by_id posts n) as [[]|].
Qed.

Lemma list_remove_sublist (p : post) (posts posts' : store) :
  list_remove p posts = Ok posts' → posts' `sublist_of` posts.
Proof.
  revert posts'. induction posts as [|q posts IH]; intros posts'; [done|].
  cbn [list_remove]. destruct (py_eq (JDict q) (JDict p)).
  - intros [= <-]. by apply sublist_cons.
  - destruct (list_remove p posts) as [r|]; simpl; [|done].
    intros [= <-]. by apply sublist_skip, IH.
Qed.


(** ** Creation *)

(** The creation, one test after the other. *)
Lemma create_post_eq (new_post : value) (posts : store) :
  create_post new_post posts =
  match validate_post_data new_post with
  | Raise e => (Raise e, posts)
  | Ok false => (Ok validation_error, posts)
  | Ok true =>
      match find_existing_post posts new_post with
      | Raise e => (Raise e, posts)
      | Ok existing_post =>
          if from_option dict_truthy false existing_post
          then (Ok duplicate_error, posts)
          else match next_id posts with
               | Raise e => (Raise e, posts)
               | Ok new_id =>
                   match setitem new_post "post_id" new_id with
                   | Raise e => (Raise e, posts)
                   | Ok stored => (Ok (created stored), (posts ++ [stored])%list)
                   end
               end
      end
  end.
Proof.
  unfold create_post, next_id. run_monad.
  destruct (validate_post_data new_post) as [[]|]; simpl; try done.
  destruct (find_existing_post posts new_post) as [existing|]; simpl; [|done].
  destruct (from_option dict_truthy false existing); [done|].
  destruct (py_max _ posts) as [m|]; simpl; [|done].
  destruct (py_add m (JInt 1)); simpl; [|done].
  by destruct (setitem new_post "post_id" a).
Qed.

(** A creation either leaves [POSTS] as it is, or puts at its end the body
    with the id assigned. *)
Lemma create_post_cases (new_post : value) (posts : store) :
  (∃ e, create_post new_post posts = (Raise e, posts))
  ∨ create_post new_post posts = (Ok validation_error, posts)
  ∨ create_post new_post posts = (Ok duplicate_error, posts)
  ∨ ∃ data new_id,
      new_post = JDict data
      ∧ is_Some (data !! "title") ∧ is_Some (data !! "content")
      ∧ next_id posts = Ok new_id
      ∧ create_post new_post posts
        = (Ok (created (<["post_id" := new_id]> data)),
           (posts ++ [<["post_id" := new_id]> data])%list).
Proof.
  rewrite create_post_eq.
  destruct (validate_post_data new_post) as [[]|] eqn:Hvalid; eauto.
  destruct (find_existing_post posts new_post) as [existing|]; eauto.
  destruct (from_option dict_truthy false existing); eauto.
  destruct (next_id posts) as [new_id|]; eauto.
  destruct new_post as [| | | | |data]; simpl; eauto.
  do 3 right. exists data, new_id.
  rewrite validate_post_data_dict in Hvalid.
  injection Hvalid as [??]%bool_decide_eq_true. by repeat split.
Qed.

(** It finds a post as soon as one has the title and the content of the
    body, when every post has both keys. *)
Lemma find_existing_post_dup (posts : store) (data q : post) t c :
  has_fields posts →
  q ∈ posts →
  q !! "title" = Some t → q !! "content" = Some c →
  data !! "title" = Some t → data !! "content" = Some c →
  ∃ existing, find_existing_post posts (JDict data) = Ok (Some existing)
              ∧ is_Some (existing !! "title").
Proof.
  intros Hfields Hq Hqt Hqc Ht Hc.
  induction Hfields as [|p posts [[pt Hpt] [pc Hpc]] _ IH]; [by inversion Hq|].
  simpl. rewrite Hpt, Ht, Hc. simpl. rewrite Hpc. simpl.
  apply elem_of_cons in Hq as [<-|Hq].
  - rewrite Hqt in Hpt. rewrite Hqc in Hpc. simplify_eq.
    rewrite !py_eq_refl. eauto.
  - destruct (py_eq pt t); [destruct (py_eq pc c)|]; eauto.
Qed.

(** ** The greatest id *)

Lemma max_from_ids (posts : store) (cur : Z) :
  Forall is_Some (post_id_of <$> posts) →
  ∃ m, max_from (fun p => getitem (JDict p) "post_id") (JInt cur) posts
       = Ok (JInt m)
       ∧ (cur ≤ m)%Z
       ∧ (m = cur ∨ Some m ∈ post_id_of <$> posts)
       ∧ ∀ n, Some n ∈ post_id_of <$> posts → (n ≤ m)%Z.
Proof.
  intros Hids. revert cur.
  induction posts as [|p posts IH]; intros cur.
  - exists cur. repeat split; [lia | by left |]. by intros n ?%elem_of_nil.
  - apply Forall_cons in Hids as [[n Hn] Hids]. specialize (IH Hids).
    cbn [max_from fmap list_fmap]. rewrite Hn. unfold post_id_of in Hn.
    cbn [getitem].
    destruct (p !! "post_id") as [[| |z| | |]|] eqn:Hp; simplify_eq.
    cbn. case_bool_decide.
    + destruct (IH n) as (m & Hm & Hle & Hin & Hmax).
      exists m. split; [exact Hm|]. repeat split; [lia | |].
      * destruct Hin as [->|]; right; [by left | by right].
      * intros k [[= ->]|?]%elem_of_cons; [lia | auto].
    + destruct (IH cur) as (m & Hm & Hle & Hin & Hmax).
      exists m. split; [exact Hm|]. repeat split; [lia | |].
      * destruct Hin as [->|]; [by left | by right; right].
      * intros k [[= ->]|?]%elem_of_cons; [lia | auto].
Qed.

(** On a list of posts with integer ids, that is not empty, the next id is
    the greatest id plus one. *)
Lemma next_id_max (posts : store) :
  Forall is_Some (post_id_of <$> posts) →
  posts ≠ [] →
  ∃ m, max_id posts m ∧ next_id posts = Ok (JInt (m + 1)).
Proof.
  intros Hids Hne. destruct posts as [|p posts]; [done|].
  apply Forall_cons in Hids as [[n Hn] Hids].
  destruct (max_from_ids posts n Hids) as (m & Hm & Hle & Hin & Hmax).
  exists m. unfold next_id, max_id, py_max. simpl.
  unfold post_id_of in Hn |- *.
  destruct (p !! "post_id") as [[| |z| | |]|] eqn:Hp; simplify_eq/=.
  rewrite Hm. simpl. repeat split.
  - destruct Hin as [->|]; [by left | by right].
  - intros k [[= ->]|?]%elem_of_cons; [lia | auto].
Qed.

(** The next id of an empty list: [max] has nothing to take. *)
Lemma next_id_empty : next_id [] = Raise ValueError.
Proof. done. Qed.

(** ** What each handler does to [POSTS] *)

Lemma list_posts_store (sort_field sort_direction : option string) posts :
  (list_posts sort_field sort_direction posts).2 = posts.
Proof.
  unfold list_posts. run_monad.
  repeat (case_match; simpl; try done).
Qed.

Lemma post_search_store (req : request) (posts : store) :
  (post_search req posts).2 = posts.
Proof.
  unfold post_search. run_monad.
  repeat (case_match; simpl in *; simplify_eq; try done).
Qed.

Lemma delete_post_store (post_id : Z) (posts : store) :
  (delete_post post_id posts).2 `sublist_of` posts.
Proof.
  unfold delete_post. run_monad.
  destruct (find_post_by_id posts post_id) as [[i p]|]; simpl; [|done].
  destruct (list_remove p posts) as [posts'|] eqn:Hrm; simpl; [|done].
  by eapply list_remove_sublist.
Qed.

(** The fields of the body written over those of the post. *)
Lemma update_post_dict (post_id : Z) (m : string) (data : post)
    (a : gmap string string) (posts : store) i p :
  find_post_by_id posts post_id = Some (i, p) →
  update_post post_id (Request m (JDict data) a) posts
  = (Ok (Response
           (message ("Post with id " +:+ pretty post_id
                     +:+ " has been updated successfully.")) 200),
     alter (fun p => from_option (fun x => <["content" := x]>) id
                       (data !! "content")
                       (from_option (fun x => <["title" := x]>) id
                          (data !! "title") p)) i posts).
Proof.
  intros Hfind. unfold update_post. run_monad. rewrite Hfind. simpl.
  destruct (data !! "title") as [t|], (data !! "content") as [c|]; simpl;
    f_equal.
  - by rewrite list_alter_alter_eq.
  - symmetry. by apply list_alter_id.
Qed.

(** An update changes one post at most, and on it nothing but the title and
    the content. *)
Lemma update_post_store (post_id : Z) (req : request) (posts : store) :
  ∃ (f : post → post) (i : nat),
    (update_post post_id req posts).2 = alter f i posts
    ∧ (∀ p k, k ≠ "title" → k ≠ "content" → f p !! k = p !! k)
    ∧ (∀ p k, is_Some (p !! k) → is_Some (f p !! k)).
Proof.
  destruct (find_post_by_id posts post_id) as [[i p]|] eqn:Hfind.
  - destruct req as [m body a]. destruct body as [| | |s|l|data].
    6: { eexists _, i. rewrite (update_post_dict _ _ _ _ _ _ _ Hfind).
         split; [done|]. split.
         - intros q k ??.
           destruct (data !! "title"), (data !! "content"); simpl;
             by rewrite ?lookup_insert_ne.
         - intros q k Hk.
           destruct (data !! "title"), (data !! "content"); simpl;
             rewrite ?lookup_insert_is_Some'; auto. }
    all: exists id, i; split; [|done]; rewrite list_alter_id by done;
      unfold update_post; run_monad; rewrite Hfind; simpl;
      repeat (case_match; simplify_eq/=); done.
  - exists id, 0%nat. split; [|done].
    unfold update_post. run_monad. rewrite Hfind. simpl.
    by rewrite list_alter_id.
Qed.

(** ** Ids stay apart *)

Lemma post_id_of_insert_id (data : post) (n : Z) :
  post_id_of (<["post_id" := JInt n]> data) = Some n.
Proof. unfold post_id_of. by rewrite lookup_insert_eq. Qed.

(** Creation gives an id above every id there is. *)
Lemma create_post_unique_ids (new_post : value) (posts : store) :
  unique_ids posts → unique_ids (create_post new_post posts).2.
Proof.
  intros [Hids Hnodup].
  destruct (create_post_cases new_post posts)
    as [[e ->]|[->|[->|(data & new_id & -> & _ & _ & Hnext & ->)]]];
    try done.
  destruct (decide (posts = [])) as [->|Hne]; [done|].
  destruct (next_id_max posts) as (m & [_ Hmax] & Hm); [done..|].
  rewrite Hnext in Hm. injection Hm as ->. unfold unique_ids. simpl.
  rewrite fmap_app. simpl. rewrite post_id_of_insert_id. split.
  - apply Forall_app. split; [done|]. by repeat constructor.
  - apply NoDup_app. repeat split; [done| |apply NoDup_singleton].
    intros x Hx ->%list_elem_of_singleton. apply Hmax in Hx. lia.
Qed.

(** An update keeps the id of every post. *)
Lemma update_post_ids (post_id : Z) (req : request) (posts : store) :
  post_id_of <$> (update_post post_id req posts).2 = post_id_of <$> posts.
Proof.
  destruct (update_post_store post_id req posts) as (f & i & -> & Hf & _).
  rewrite (list_fmap_alter post_id_of f id).
  - by apply list_alter_id.
  - apply Forall_forall. intros p _. unfold post_id_of. by rewrite Hf.
Qed.

(** A deletion only removes. *)
Lemma delete_post_unique_ids (post_id : Z) (posts : store) :
  unique_ids posts → unique_ids (delete_post post_id posts).2.
Proof.
  intros [Hids Hnodup].
  pose proof (delete_post_store post_id posts) as Hsub.
  apply (fmap_sublist post_id_of) in Hsub. split.
  - apply Forall_forall. intros x Hx.
    eapply Forall_forall; [exact Hids | by eapply elem_of_sublist].
  - by eapply sublist_NoDup.
Qed.

Lemma serve_unique_ids (c : call) (posts : store) :
  unique_ids posts → unique_ids (serve c posts).2.
Proof.
  intros Hu. destruct c as [req|post_id|post_id req|req]; simpl.
  - unfold get_posts. case_bool_decide.
    + by apply create_post_unique_ids.
    + by rewrite list_posts_store.
  - by apply delete_post_unique_ids.
  - unfold unique_ids. by rewrite update_post_ids.
  - by rewrite post_search_store.
Qed.

(** ** The title and the content stay *)

Lemma serve_has_fields (c : call) (posts : store) :
  has_fields posts → has_fields (serve c posts).2.
Proof.
  unfold has_fields. intros Hf.
  destruct c as [req|post_id|post_id req|req]; simpl.
  - unfold get_posts. case_bool_decide; [|by rewrite list_posts_store].
    destruct (create_post_cases (get_json req) posts)
      as [[e ->]|[->|[->|(data & new_id & _ & Ht & Hc & _ & ->)]]];
      try done.
    apply Forall_app. split; [done|]. constructor; [|done].
    by rewrite !lookup_insert_ne.
  - rewrite Forall_forall in Hf |- *. intros p Hp. apply Hf.
    eapply elem_of_sublist; [exact Hp | apply delete_post_store].
  - destruct (update_post_store post_id req posts) as (f & i & -> & _ & Hk).
    apply Forall_alter; [done|]. intros p _ [??]. split; by apply Hk.
  - by rewrite post_search_store.
Qed.

(** Whatever the requests served since the start, every post has a title
    and a content, and its own integer id. *)
Lemma run_invariant (calls : list call) (posts : store) :
  has_fields posts → unique_ids posts →
  has_fields (run calls posts) ∧ unique_ids (run calls posts).
Proof.
  revert posts. induction calls as [|c calls IH]; intros posts Hf Hu; [done|].
  simpl. apply IH; [by apply serve_has_fields | by apply serve_unique_ids].
Qed.

Lemma POSTS_invariant : has_fields POSTS ∧ unique_ids POSTS.
Proof. split; apply (bool_decide_unpack _); by vm_compute. Qed.

(* ===================================================================== *)
(** * The properties of the specification *)
(* ===================================================================== *)

(** ** Creation *)

(** On a list of posts with integer ids that is not empty, creating a valid
    post that is no duplicate puts one post more at the end of [POSTS], and
    the id of the post returned is the greatest id plus one. *)
Lemma create_post_next_id (posts : store) (data : post) :
  Forall is_Some (post_id_of <$> posts) →
  posts ≠ [] →
  is_Some (data !! "title") → is_Some (data !! "content") →
  find_existing_post posts (JDict data) = Ok None →
  ∃ m, max_id posts m
       ∧ create_post (JDict data) posts
         = (Ok (created (<["post_id" := JInt (m + 1)]> data)),
            (posts ++ [<["post_id" := JInt (m + 1)]> data])%list)
       ∧ length (create_post (JDict data) posts).2 = S (length posts).
Proof.
  intros Hids Hne Ht Hc Hfind.
  destruct (next_id_max posts) as (m & Hmax & Hm); [done..|].
  exists m. split; [done|].
  rewrite create_post_eq, validate_post_data_dict, bool_decide_eq_true_2,
    Hfind, Hm by done.
  simpl. split; [done|]. rewrite length_app. simpl. lia.
Qed.

(** C1. Creating a post when the collection is empty does not assign the
    id 1: once the two initial posts are deleted, [max] has no id to take
    and the creation ends with [ValueError], [POSTS] staying empty. *)
Theorem create_post_empty_raises :
  run [Delete 1; Delete 2] POSTS = []
  ∧ create_post
      (JDict {[ "title" := JStr "Third post";
                "content" := JStr "This is the third post." ]})
      (run [Delete 1; Delete 2] POSTS)
    = (Raise ValueError, []).
Proof. split; by vm_compute. Qed.

(** C6. Creating a post whose title and content are those of a post of the
    collection answers [409] with "Post already exists" and leaves the
    collection as it was. *)
Theorem create_post_duplicate (posts : store) (data q : post) (t c : value) :
  has_fields posts →
  q ∈ posts →
  q !! "title" = Some t → q !! "content" = Some c →
  data !! "title" = Some t → data !! "content" = Some c →
  create_post (JDict data) posts = (Ok duplicate_error, posts).
Proof.
  intros Hfields Hq Hqt Hqc Ht Hc.
  destruct (find_existing_post_dup posts data q t c)
    as (existing & Hfind & [x Hx]); try done.
  rewrite create_post_eq, validate_post_data_dict, bool_decide_eq_true_2,
    Hfind by (rewrite Ht, Hc; eauto).
  simpl. unfold dict_truthy. rewrite bool_decide_eq_false_2; [done|].
  intros ->%map_size_empty_iff. by rewrite lookup_empty in Hx.
Qed.

Lemma create_post_duplicate_witness :
  create_post
    (JDict {[ "title" := JStr "Second post";
              "content" := JStr "This is the second post.";
              "author" := JStr "Ada" ]})
    POSTS
  = (Ok duplicate_error, POSTS).
Proof.
  apply (create_post_duplicate POSTS _
           {[ "post_id" := JInt 2; "title" := JStr "Second post";
              "content" := JStr "This is the second post." ]}
           (JStr "Second post") (JStr "This is the second post.")).
  - apply (bool_decide_unpack _). by vm_compute.
  - unfold POSTS. by right; left.
  - reflexivity.
  - reflexivity.
  - reflexivity.
  - reflexivity.
Defined.

(** C7. Creating a post answers the validation error exactly when the
    title key or the content key is missing from the body; the collection
    is then as it was; and an empty string under a key counts as present. *)
Theorem create_post_validation (posts : store) (data : post) :
  ((create_post (JDict data) posts).1 = Ok validation_error
   ↔ data !! "title" = None ∨ data !! "content" = None)
  ∧ ((create_post (JDict data) posts).1 = Ok validation_error
     → (create_post (JDict data) posts).2 = posts)
  ∧ validate_post_data
      (JDict {[ "title" := JStr ""; "content" := JStr "" ]}) = Ok true.
Proof.
  assert ((create_post (JDict data) posts).1 = Ok validation_error
          ↔ data !! "title" = None ∨ data !! "content" = None) as Hiff.
  { rewrite create_post_eq, validate_post_data_dict.
    case_bool_decide as Hboth.
    - destruct Hboth as [[t Ht] [c Hc]]. rewrite Ht, Hc.
      split; [|by intros [|]].
      destruct (find_existing_post posts (JDict data)) as [existing|];
        simpl; [|done].
      destruct (from_option dict_truthy false existing); [done|].
      destruct (next_id posts); simpl; done.
    - split; [intros _|done].
      destruct (data !! "title"), (data !! "content"); eauto.
      destruct Hboth; eauto. }
  split; [done|]. split; [|done].
  intros Hbad. apply Hiff in Hbad. rewrite create_post_eq,
    validate_post_data_dict, bool_decide_eq_false_2; [done|].
  intros [[] []]. by destruct Hbad; simplify_eq.
Qed.

(** ** Uniqueness of the ids *)

(** C8. From a collection where every post has its own integer id, every
    sequence of requests (creations, listings, updates, deletions,
    searches) leads to a collection where every post has its own integer
    id. *)
Theorem run_unique_ids (calls : list call) (posts : store) :
  unique_ids posts → unique_ids (run calls posts).
Proof.
  revert posts. induction calls as [|c calls IH]; intros posts Hu; [done|].
  simpl. by apply IH, serve_unique_ids.
Qed.

Lemma run_unique_ids_witness :
  unique_ids
    (run [ Posts (Request "POST"
                    (JDict {[ "title" := JStr "Third post";
                              "content" := JStr "This is the third post." ]})
                    ∅);
           Update 1 (Request "PUT" (JDict {[ "title" := JStr "T" ]}) ∅);
           Delete 2;
           Posts (Request "POST"
                    (JDict {[ "title" := JStr "Fourth post";
                              "content" := JStr "";
                              "post_id" := JInt 1 ]})
                    ∅) ]
         POSTS).
Proof.
  apply run_unique_ids. apply (bool_decide_unpack _). by vm_compute.
Defined.

(** ** Search *)

(** C2. A search with a [post_id] that is not a number does not answer a
    list of posts: [int] raises [ValueError], which nothing catches. *)
Theorem post_search_non_numeric_id_raises :
  post_search (Request "GET" JNull {[ "post_id" := "abc" ]}) POSTS
  = (Raise ValueError, POSTS).
Proof. by vm_compute. Qed.

(** ** Searching and listing *)

Lemma comprehension_sublist (test : post → result bool) (posts l : store) :
  comprehension test posts = Ok l → l `sublist_of` posts.
Proof.
  revert l. induction posts as [|p posts IH]; intros l; simpl.
  - by intros [= <-].
  - destruct (test p) as [b|]; simpl; [|done].
    destruct (comprehension test posts) as [r|]; simpl; [|done].
    intros [= <-]. destruct b; [apply sublist_skip | apply sublist_cons];
      by apply IH.
Qed.

(** On posts whose [field] is text, filtering on a needle that is not empty
    keeps the posts whose [field] contains it. *)
Lemma comprehension_text (field needle : string) (posts : store) :
  Forall (fun p => is_text (dict_get p field (JStr "")) = true) posts →
  needle ≠ "" →
  comprehension (fun p => py_in needle (dict_get p field (JStr ""))) posts
  = Ok (filter (fun p => field_contains field needle p) posts).
Proof.
  intros Htext Hne. induction Htext as [|p posts Hp _ IH]; [done|].
  cbn [comprehension]. rewrite IH, filter_cons.
  unfold dict_get, field_contains in *.
  destruct (p !! field) as [[| | |hay| |]|]; try done; cbn [py_in mbind result_bind].
  - by destruct (contains needle hay).
  - rewrite contains_empty_hay, bool_decide_eq_false_2 by done. done.
Qed.

Lemma py_int_truthy (s : string) (n : Z) :
  py_int s = Ok n → str_truthy s = true.
Proof. by destruct s. Qed.

(** A search on an id reads the id as a number and answers the first post
    with that id, or nothing. *)
Lemma post_search_by_id (posts : store) m j (a : gmap string string) s n :
  a !! "post_id" = Some s →
  py_int s = Ok n →
  post_search (Request m j a) posts
  = (Ok (ok_posts (take 1 (filter (fun p => has_id p n) posts))), posts).
Proof.
  intros Ha Hn. unfold post_search. run_monad.
  rewrite Ha. simpl. rewrite (py_int_truthy _ _ Hn), Hn. simpl.
  rewrite find_post_by_id_filter.
  destruct (find_post_by_id posts n) as [[i p]|] eqn:Hfind; simpl; [|done].
  apply find_post_by_id_Some in Hfind as (_ & Hid & _).
  by rewrite (has_id_dict_truthy _ _ Hid).
Qed.

(** Every search that answers, answers posts of [POSTS], whole. *)
Lemma post_search_sublist (req : request) (posts : store) (r : response) :
  (post_search req posts).1 = Ok r →
  ∃ l, r = ok_posts l ∧ l `sublist_of` posts.
Proof.
  unfold post_search. run_monad.
  destruct (arg_truthy (args req !! "post_id")).
  - destruct (py_int _) as [n|]; simpl; [|done].
    destruct (find_post_by_id posts n) as [[i p]|] eqn:Hfind; simpl.
    + apply find_post_by_id_Some in Hfind as (Hp & _).
      intros [= <-]. eexists. split; [done|].
      destruct (dict_truthy p); [|apply sublist_nil_l].
      apply singleton_sublist_l. eapply list_elem_of_lookup_2, Hp.
    + intros [= <-]. eexists. split; [done|]. apply sublist_nil_l.
  - destruct (arg_truthy (args req !! "content")),
      (arg_truthy (args req !! "title")); simpl;
      repeat match goal with
        | |- context [comprehension ?t posts] =>
            let H := fresh "Hc" in
            destruct (comprehension t posts) eqn:H; simpl; [|done]
        end;
      intros [= <-]; eauto using comprehension_sublist, sublist_nil_l.
Qed.

Lemma sort_posts_perm (posts l : store) (field direction : option string) :
  sort_posts posts field direction = Ok l → l ≡ₚ posts.
Proof.
  unfold sort_posts. repeat case_bool_decide; try by intros [= <-].
  all: destruct (sorted _ posts) as [r|] eqn:Hr; simpl; [|done];
    apply sorted_perm in Hr; intros [= <-]; by rewrite ?reverse_Permutation.
Qed.

(** Every listing that answers [200] answers all of [POSTS], whole, in some
    order. *)
Lemma list_posts_perm (sort_field sort_direction : option string)
    (posts : store) (r : response) :
  (list_posts sort_field sort_direction posts).1 = Ok r →
  status r = 200 →
  ∃ l, r = ok_posts l ∧ l ≡ₚ posts.
Proof.
  unfold list_posts. run_monad.
  destruct (_ && _); [by intros [= <-]|].
  destruct (_ && _); [by intros [= <-]|].
  destruct (sort_posts _ _ _) as [l|] eqn:Hl; simpl; [|done].
  intros [= <-] _. eauto using sort_posts_perm.
Qed.

(** C3, as the code has it.  A [post_id] that reads as a number makes the
    search answer the first post with that id, or nothing, whatever the
    title and the content asked for.  With no [post_id], or an empty one,
    a title that is not empty makes it answer the posts whose title
    contains it, whatever the content asked for (the posts holding text).
    With none of the three parameters it answers nothing. *)
Theorem post_search_cases (posts : store) (m : string) (j : value)
    (a : gmap string string) :
  (∀ s n, a !! "post_id" = Some s → py_int s = Ok n →
     post_search (Request m j a) posts
     = (Ok (ok_posts (take 1 (filter (fun p => has_id p n) posts))), posts))
  ∧ (∀ t, arg_truthy (a !! "post_id") = false →
       a !! "title" = Some t → t ≠ "" →
       text_fields posts →
       post_search (Request m j a) posts
       = (Ok (ok_posts (filter (fun p => field_contains "title" t p) posts)),
          posts))
  ∧ (a !! "post_id" = None → a !! "title" = None → a !! "content" = None →
     post_search (Request m j a) posts = (Ok (ok_posts []), posts)).
Proof.
  split; [|split].
  - intros s n. apply post_search_by_id.
  - intros t Hid Ht Hne Htext. unfold post_search. run_monad.
    rewrite Hid, Ht. simpl. destruct t as [|c t]; [done|]. simpl.
    rewrite (comprehension_text "title" (String c t)); [|
      by eapply Forall_impl; [exact Htext | intros ? []] | done].
    destruct (arg_truthy (a !! "content")) eqn:Hc; simpl; [|done].
    destruct (a !! "content") as [[|c' needle]|]; try done. simpl.
    rewrite (comprehension_text "content" (String c' needle)); [done| |done].
    by eapply Forall_impl; [exact Htext | intros ? []].
  - intros Hid Ht Hc. unfold post_search. run_monad.
    by rewrite Hid, Ht, Hc.
Qed.

(** So a search answers a list of posts whenever its [post_id], if not
    empty, reads as a number, the posts holding text. *)
Lemma post_search_answers (posts : store) (m : string) (j : value)
    (a : gmap string string) :
  text_fields posts →
  (∀ s, a !! "post_id" = Some s → s ≠ "" → ∃ n, py_int s = Ok n) →
  ∃ l, post_search (Request m j a) posts = (Ok (ok_posts l), posts).
Proof.
  intros Htext Hid.
  assert (∀ field needle,
            field = "title" ∨ field = "content" → needle ≠ "" →
            comprehension
              (fun p => py_in needle (dict_get p field (JStr ""))) posts
            = Ok (filter (fun p => field_contains field needle p) posts))
    as Hfilter.
  { intros field needle Hfield Hne. apply comprehension_text; [|done].
    eapply Forall_impl; [exact Htext|]. by intros p [??]; destruct Hfield as [->| ->]. }
  destruct (a !! "post_id") as [[|c s]|] eqn:Ha.
  2: { destruct (Hid _ eq_refl) as [n Hn]; [done|].
       eexists. by eapply post_search_by_id. }
  all: clear Hid; unfold post_search; run_monad; rewrite Ha; simpl;
    destruct (a !! "content") as [[|c1 s1]|], (a !! "title") as [[|c2 s2]|];
    simpl; rewrite ?Hfilter by (auto; done); simpl; eauto.
Qed.

Lemma post_search_cases_witness :
  post_search (Request "GET" JNull
                 {[ "post_id" := "2"; "title" := "First"; "content" := "x" ]})
    POSTS
  = (Ok (ok_posts (take 1 (filter (fun p => has_id p 2) POSTS))), POSTS)
  ∧ post_search (Request "GET" JNull
                   {[ "title" := "Second"; "content" := "first" ]})
      POSTS
    = (Ok (ok_posts (filter (fun p => field_contains "title" "Second" p)
                       POSTS)), POSTS)
  ∧ post_search (Request "GET" JNull ∅) POSTS = (Ok (ok_posts []), POSTS).
Proof.
  split; [|split].
  - apply (proj1 (post_search_cases POSTS "GET" JNull _) "2" 2);
      reflexivity.
  - apply (proj1 (proj2 (post_search_cases POSTS "GET" JNull _)) "Second");
      [reflexivity | reflexivity | done |].
    apply (bool_decide_unpack _). by vm_compute.
  - apply (proj2 (proj2 (post_search_cases POSTS "GET" JNull ∅)));
      reflexivity.
Defined.

(** C3, as stated, fails on parameters supplied empty.  An empty [post_id]
    does not make the search ignore the title: with the title "First" the
    first post is answered, without it nothing is.  And an empty title
    beside the content "first" leaves the posts filtered on the content,
    not those whose title contains the empty title, which are all. *)
Lemma post_search_supplied_empty_counterexample :
  post_search (Request "GET" JNull {[ "post_id" := ""; "title" := "First" ]})
    POSTS
  ≠ post_search (Request "GET" JNull {[ "post_id" := "" ]}) POSTS
  ∧ post_search (Request "GET" JNull {[ "content" := "first"; "title" := "" ]})
      POSTS
    ≠ (Ok (ok_posts (filter (fun p => field_contains "title" "" p) POSTS)),
       POSTS).
Proof. split; by vm_compute. Qed.

Lemma without_empty_lookup (a : gmap string string) (k : string) :
  without_empty a !! k
  = match a !! k with
    | Some s => if str_truthy s then Some s else None
    | None => None
    end.
Proof.
  unfold without_empty. rewrite map_lookup_filter.
  by destruct (a !! k) as [[|c s]|].
Qed.

(** C10. A search with parameters given an empty value answers what the
    search without them answers; with the three of them empty, nothing. *)
Theorem post_search_empty_is_absent (posts : store) (m : string) (j : value)
    (a : gmap string string) :
  post_search (Request m j a) posts
  = post_search (Request m j (without_empty a)) posts
  ∧ post_search
      (Request m j {[ "post_id" := ""; "title" := ""; "content" := "" ]})
      posts
    = (Ok (ok_posts []), posts).
Proof.
  split; [|done]. unfold post_search. run_monad.
  rewrite !without_empty_lookup.
  destruct (a !! "post_id") as [[|? ?]|], (a !! "content") as [[|? ?]|],
    (a !! "title") as [[|? ?]|]; reflexivity.
Qed.

(** ** Listing *)

Lemma is_valid_sort_field_inv (field : string) :
  is_valid_sort_field field = true → field = "title" ∨ field = "content".
Proof.
  unfold is_valid_sort_field. intros H%bool_decide_eq_true.
  apply elem_of_cons in H as [->|H]; [by left|].
  apply elem_of_cons in H as [->|H]; [by right|].
  by apply elem_of_nil in H.
Qed.

(** C4. For a valid sort field, the listing in direction "desc" is the
    listing in direction "asc" reversed (and fails as it fails); so the
    posts tied on the field, which "asc" leaves in the order of the
    collection, come in the reverse of that order under "desc". *)
Theorem list_posts_desc_reverses_asc (posts : store) (field : string) :
  is_valid_sort_field field = true →
  ∃ r : result (list post),
    list_posts (Some field) (Some "asc") posts = (ok_posts <$> r, posts)
    ∧ list_posts (Some field) (Some "desc") posts
      = (ok_posts <$> (reverse <$> r), posts)
    ∧ ∀ asc k, r = Ok asc →
        filter (fun p => field_tied field k p) asc
        = filter (fun p => field_tied field k p) posts
        ∧ filter (fun p => field_tied field k p) (reverse asc)
          = reverse (filter (fun p => field_tied field k p) posts).
Proof.
  intros Hvalid.
  exists (sorted (fun p => getitem (JDict p) field) posts).
  assert (arg_truthy (Some field) = true) as Htruthy.
  { by destruct (is_valid_sort_field_inv _ Hvalid) as [->| ->]. }
  unfold list_posts. rewrite Htruthy. simpl. rewrite Hvalid. simpl.
  run_monad. unfold sort_posts.
  split; [|split].
  - destruct (is_valid_sort_field_inv _ Hvalid) as [->| ->]; simpl;
      by destruct (sorted _ posts).
  - destruct (is_valid_sort_field_inv _ Hvalid) as [->| ->]; simpl;
      by destruct (sorted _ posts).
  - intros asc k Hasc.
    assert (filter (fun p => field_tied field k p) asc
            = filter (fun p => field_tied field k p) posts) as Hstable.
    { apply (sorted_stable (fun p => getitem (JDict p) field)
               (fun v => py_eq v k)); [| |done].
      - intros x y. apply py_lt_tied.
      - intros p v. unfold field_tied. simpl.
        destruct (p !! field); [by intros [= ->] | done]. }
    split; [done|]. by rewrite filter_reverse, Hstable.
Qed.

Lemma list_posts_desc_reverses_asc_witness :
  ∃ r : result (list post),
    list_posts (Some "title") (Some "asc") POSTS = (ok_posts <$> r, POSTS)
    ∧ list_posts (Some "title") (Some "desc") POSTS
      = (ok_posts <$> (reverse <$> r), POSTS)
    ∧ ∀ asc k, r = Ok asc →
        filter (fun p => field_tied "title" k p) asc
        = filter (fun p => field_tied "title" k p) POSTS
        ∧ filter (fun p => field_tied "title" k p) (reverse asc)
          = reverse (filter (fun p => field_tied "title" k p) POSTS).
Proof.
  apply (list_posts_desc_reverses_asc POSTS "title"). reflexivity.
Defined.

(** ** Update *)

(** In a collection with unique ids, the post found for an id is the post
    with that id. *)
Lemma find_post_by_id_unique (posts : store) (n : Z) i p :
  unique_ids posts →
  posts !! i = Some p → post_id_of p = Some n →
  find_post_by_id posts n = Some (i, p).
Proof.
  intros [Hids Hnodup]. revert i.
  induction posts as [|q posts IH]; intros i Hi Hp; [done|].
  apply Forall_cons in Hids as [[k Hk] Hids].
  apply NoDup_cons in Hnodup as [Hq Hnodup]. simpl.
  rewrite (has_id_post_id_of _ _ _ Hk). destruct i as [|i]; simpl in *.
  - simplify_eq. by rewrite bool_decide_eq_true_2.
  - rewrite bool_decide_eq_false_2, (IH Hids Hnodup i) by
      (try done; intros ->; apply Hq; rewrite Hk, <-Hp;
       apply list_elem_of_fmap_2; by eapply list_elem_of_lookup_2).
    done.
Qed.

(** C5. In a collection with unique ids, updating the post with id [X]
    with a body answers [200] and writes on that post the title and the
    content the body has; every other key of that post, and the title or
    the content the body has not, are as before; and so is every other
    post.  With a body of a title alone, the post changes in its title
    alone. *)
Theorem update_post_frame (posts : store) (X : Z) (m : string) (data : post)
    (a : gmap string string) (i : nat) (p : post) :
  unique_ids posts →
  posts !! i = Some p → post_id_of p = Some X →
  ∃ (r : response) (posts' : store) (p' : post),
    update_post X (Request m (JDict data) a) posts = (Ok r, posts')
    ∧ status r = 200
    ∧ posts' !! i = Some p'
    ∧ (∀ k x, k = "title" ∨ k = "content" →
         data !! k = Some x → p' !! k = Some x)
    ∧ (∀ k, (k ≠ "title" ∧ k ≠ "content") ∨ data !! k = None →
         p' !! k = p !! k)
    ∧ (∀ T, data = {[ "title" := T ]} → p' = <["title" := T]> p)
    ∧ length posts' = length posts
    ∧ ∀ i', i' ≠ i → posts' !! i' = posts !! i'.
Proof.
  intros Hu Hi Hp.
  rewrite (update_post_dict _ _ _ _ _ _ _ (find_post_by_id_unique _ _ _ _ Hu Hi Hp)).
  eexists _, _, _. split; [done|]. split; [done|].
  split; [by rewrite list_lookup_alter_eq, Hi|].
  assert (∀ k, (∀ x, data !! k = Some x → k ≠ "title" ∧ k ≠ "content") →
            from_option (fun x => <["content" := x]>) id (data !! "content")
              (from_option (fun x => <["title" := x]>) id
                 (data !! "title") p) !! k = p !! k) as Hkeep.
  { intros k Hk.
    destruct (data !! "title") as [t|] eqn:Ht,
      (data !! "content") as [c|] eqn:Hc; cbn [from_option id];
      rewrite ?lookup_insert_ne; try done; intros <-;
      first [by destruct (Hk _ Hc) | by destruct (Hk _ Ht)]. }
  repeat split.
  - intros k x [-> | ->] Hk; rewrite Hk; cbn [from_option id].
    + destruct (data !! "content"); cbn [from_option id];
        rewrite ?lookup_insert_ne by done; apply lookup_insert_eq.
    + apply lookup_insert_eq.
  - intros k [[Ht Hc]|Hk]; apply Hkeep; [done|].
    intros x Hx. by rewrite Hk in Hx.
  - by intros T ->.
  - apply length_alter.
  - intros i' Hi'. by apply list_lookup_alter_ne.
Qed.

Lemma update_post_frame_witness :
  ∃ (r : response) (posts' : store) (p' : post),
    update_post 2 (Request "PUT" (JDict {[ "title" := JStr "T" ]}) ∅) POSTS
    = (Ok r, posts')
    ∧ status r = 200
    ∧ posts' !! 1%nat = Some p'
    ∧ p' = {[ "post_id" := JInt 2; "title" := JStr "T";
              "content" := JStr "This is the second post." ]}
    ∧ posts' !! 0%nat = POSTS !! 0%nat.
Proof.
  destruct (update_post_frame POSTS 2 "PUT" {[ "title" := JStr "T" ]} ∅ 1
              {[ "post_id" := JInt 2; "title" := JStr "Second post";
                 "content" := JStr "This is the second post." ]})
    as (r & posts' & p' & Hrun & Hstatus & Hp' & _ & _ & Htitle & _ & Hrest).
  - apply (bool_decide_unpack _). by vm_compute.
  - reflexivity.
  - reflexivity.
  - exists r, posts', p'. repeat split; try done.
    + rewrite (Htitle (JStr "T") eq_refl). apply map_eq. intros k.
      rewrite !lookup_insert. repeat case_decide; simplify_eq; done.
    + by apply Hrest.
Defined.

(** ** The post created *)

(** [<] between a number and anything else is between two numbers. *)
Lemma py_lt_num (a b : value) (r : bool) :
  py_lt a b = Ok r →
  is_Some (as_int a) ∨ is_Some (as_int b) →
  ∃ x y, as_int a = Some x ∧ as_int b = Some y ∧ r = bool_decide (x < y)%Z.
Proof.
  destruct a, b; simpl; intros Hlt [[? ?]|[? ?]]; simplify_eq; eauto.
Qed.

(** When the [max] is a number, so are all the ids, and none is above it. *)
Lemma max_from_num (posts : store) (cur m : value) (z : Z) :
  max_from (fun p => getitem (JDict p) "post_id") cur posts = Ok m →
  as_int m = Some z →
  (∃ c, as_int cur = Some c ∧ (c ≤ z)%Z)
  ∧ Forall (fun p => ∃ v i, p !! "post_id" = Some v
                            ∧ as_int v = Some i ∧ (i ≤ z)%Z) posts.
Proof.
  revert cur. induction posts as [|p posts IH]; intros cur; simpl.
  - intros [= ->] Hz. split; [|done]. exists z. split; [done|lia].
  - destruct (p !! "post_id") as [v|] eqn:Hv; simpl; [|done].
    unfold py_gt. destruct (py_lt cur v) as [b|] eqn:Hlt; simpl; [|done].
    intros Hmax Hz. destruct (IH _ Hmax Hz) as [(c' & Hc' & Hle) Hrest].
    destruct (py_lt_num _ _ _ Hlt) as (x & y & Hx & Hy & ->).
    { destruct b; eauto. }
    case_bool_decide; simplify_eq.
    + split; [exists x; split; [done|lia]|].
      constructor; [|done]. by exists v, c'.
    + split; [by exists c'|].
      constructor; [|done]. exists v, y. split; [done|]. split; [done|lia].
Qed.

(** The id a creation assigns is an integer that no post has. *)
Lemma next_id_fresh (posts : store) (new_id : value) :
  next_id posts = Ok new_id →
  ∃ n, new_id = JInt n ∧ Forall (fun p => has_id p n = false) posts.
Proof.
  unfold next_id, py_max. destruct posts as [|p posts]; [done|]. simpl.
  destruct (p !! "post_id") as [cur|] eqn:Hp; simpl; [|done].
  destruct (max_from _ cur posts) as [m|] eqn:Hmax; simpl; [|done].
  unfold py_add. destruct (as_int m) as [z|] eqn:Hz; simpl; [|done].
  intros [= <-]. exists (z + 1)%Z. split; [done|].
  destruct (max_from_num _ _ _ _ Hmax Hz) as [(c & Hc & Hle) Hrest].
  assert (∀ v i, as_int v = Some i → (i ≤ z)%Z →
                 py_eq v (JInt (z + 1)) = false) as Hne.
  { intros [] i; simpl; try done; intros [= <-] ?;
      apply bool_decide_eq_false; lia. }
  constructor.
  - unfold has_id. rewrite Hp. eauto.
  - eapply Forall_impl; [exact Hrest|]. intros q (v & i & Hv & Hi & ?).
    unfold has_id. rewrite Hv. eauto.
Qed.

Lemma find_post_by_id_app (posts l : store) (n : Z) :
  Forall (fun p => has_id p n = false) posts →
  find_post_by_id (posts ++ l) n
  = prod_map (fun i => (length posts + i)%nat) id <$> find_post_by_id l n.
Proof.
  induction 1 as [|p posts Hp _ IH]; simpl.
  - by destruct (find_post_by_id l n) as [[]|].
  - rewrite Hp, IH. by destruct (find_post_by_id l n) as [[]|].
Qed.

(** No post of the collection has both the title and the content of the
    body: the search for an existing post finds none. *)
Lemma find_existing_post_none (posts : store) (data : post) (t c : value) :
  has_fields posts →
  data !! "title" = Some t → data !! "content" = Some c →
  (∀ q t' c', q ∈ posts → q !! "title" = Some t' → q !! "content" = Some c' →
              py_eq t' t && py_eq c' c = false) →
  find_existing_post posts (JDict data) = Ok None.
Proof.
  intros Hfields Ht Hc Hnew.
  induction Hfields as [|q posts [[qt Hqt] [qc Hqc]] _ IH]; [done|].
  simpl. rewrite Hqt, Ht, Hc. simpl. rewrite Hqc. simpl.
  pose proof (Hnew q qt qc (list_elem_of_here _ _) Hqt Hqc) as Hq.
  rewrite IH by (intros r ????; eapply Hnew; [by right|done..]).
  by destruct (py_eq qt t), (py_eq qc c).
Qed.

(** C9. Creating a post with a title and a content that no post has both,
    in a collection (not empty) of posts with integer ids, a title and a
    content, answers [201] and stores the body as received, with the id
    assigned under "post_id": every other key of the body is on the stored
    post with its value, and the post returned is the stored post.  The
    listing then answers it with the posts, every listing that answers
    has it, every search answers posts of the collection as stored, and
    the search on its id answers it. *)
Theorem create_post_keeps_fields (posts : store) (data : post) (t c : value) :
  Forall is_Some (post_id_of <$> posts) → posts ≠ [] →
  has_fields posts →
  data !! "title" = Some t → data !! "content" = Some c →
  (∀ q t' c', q ∈ posts → q !! "title" = Some t' → q !! "content" = Some c' →
              py_eq t' t && py_eq c' c = false) →
  ∃ (n : Z) (stored : post),
    stored = <["post_id" := JInt n]> data
    ∧ create_post (JDict data) posts
      = (Ok (created stored), (posts ++ [stored])%list)
    ∧ (∀ k, k ≠ "post_id" → stored !! k = data !! k)
    ∧ dom data ⊆ dom stored
    ∧ list_posts None None (posts ++ [stored])%list
      = (Ok (ok_posts (posts ++ [stored])%list), (posts ++ [stored])%list)
    ∧ (∀ sort_field sort_direction r',
         (list_posts sort_field sort_direction (posts ++ [stored])%list).1
         = Ok r' →
         status r' = 200 →
         ∃ l, r' = ok_posts l ∧ stored ∈ l)
    ∧ (∀ req r',
         (post_search req (posts ++ [stored])%list).1 = Ok r' →
         ∃ l, r' = ok_posts l ∧ l `sublist_of` (posts ++ [stored])%list)
    ∧ (∀ m j (a : gmap string string) s,
         a !! "post_id" = Some s → py_int s = Ok n →
         post_search (Request m j a) (posts ++ [stored])%list
         = (Ok (ok_posts [stored]), (posts ++ [stored])%list)).
Proof.
  intros Hids Hne Hfields Ht Hc Hnew.
  destruct (next_id_max posts Hids Hne) as (m & _ & Hnext).
  destruct (next_id_fresh _ _ Hnext) as (n & [= <-] & Hfresh).
  exists (m + 1)%Z, (<["post_id" := JInt (m + 1)]> data).
  split; [done|]. split; [|repeat split].
  - rewrite create_post_eq, validate_post_data_dict, bool_decide_eq_true_2,
      (find_existing_post_none _ _ _ _ Hfields Ht Hc Hnew), Hnext
      by (rewrite Ht, Hc; eauto).
    done.
  - intros k Hk. by rewrite lookup_insert_ne.
  - rewrite dom_insert. set_solver.
  - intros sf sd r' Hr' Hok.
    destruct (list_posts_perm _ _ _ _ Hr' Hok) as (l & -> & Hl).
    exists l. split; [done|]. rewrite Hl. set_solver.
  - intros req r'. apply post_search_sublist.
  - intros m' j a s Ha Hs. rewrite (post_search_by_id _ _ _ _ _ _ Ha Hs).
    rewrite find_post_by_id_filter, (find_post_by_id_app _ _ _ Hfresh).
    simpl. unfold has_id. by rewrite lookup_insert_eq, py_eq_refl.
Qed.

Lemma create_post_keeps_fields_witness :
  create_post
    (JDict {[ "title" := JStr "Third post";
              "content" := JStr "This is the third post.";
              "author" := JStr "Ada";
              "tags" := JList [JStr "a"; JStr "b"] ]})
    POSTS
  = (Ok (created {[ "post_id" := JInt 3;
                    "title" := JStr "Third post";
                    "content" := JStr "This is the third post.";
                    "author" := JStr "Ada";
                    "tags" := JList [JStr "a"; JStr "b"] ]}),
     (POSTS ++ [ {[ "post_id" := JInt 3;
                    "title" := JStr "Third post";
                    "content" := JStr "This is the third post.";
                    "author" := JStr "Ada";
                    "tags" := JList [JStr "a"; JStr "b"] ]} ])%list)
  ∧ post_search (Request "GET" JNull {[ "post_id" := "3" ]})
      (POSTS ++ [ {[ "post_id" := JInt 3;
                     "title" := JStr "Third post";
                     "content" := JStr "This is the third post.";
                     "author" := JStr "Ada";
                     "tags" := JList [JStr "a"; JStr "b"] ]} ])%list
    = (Ok (ok_posts [ {[ "post_id" := JInt 3;
                         "title" := JStr "Third post";
                         "content" := JStr "This is the third post.";
                         "author" := JStr "Ada";
                         "tags" := JList [JStr "a"; JStr "b"] ]} ]),
       (POSTS ++ [ {[ "post_id" := JInt 3;
                      "title" := JStr "Third post";
                      "content" := JStr "This is the third post.";
                      "author" := JStr "Ada";
                      "tags" := JList [JStr "a"; JStr "b"] ]} ])%list).
Proof.
  destruct (create_post_keeps_fields POSTS
              {[ "title" := JStr "Third post";
                 "content" := JStr "This is the third post.";
                 "author" := JStr "Ada";
                 "tags" := JList [JStr "a"; JStr "b"] ]}
              (JStr "Third post") (JStr "This is the third post."))
    as (n & stored & Hstored & Hcreate & _ & _ & _ & _ & _ & Hsearch).
  - apply (bool_decide_unpack _). by vm_compute.
  - done.
  - apply (bool_decide_unpack _). by vm_compute.
  - reflexivity.
  - reflexivity.
  - intros q t' c' Hq Ht' Hc'. unfold POSTS in Hq.
    apply elem_of_cons in Hq as [->|Hq];
      [|apply elem_of_cons in Hq as [->|Hq]; [|by apply elem_of_nil in Hq]];
      vm_compute in Ht', Hc'; simplify_eq; by vm_compute.
  - assert (n = 3) as ->.
    { rewrite create_post_eq in Hcreate. vm_compute in Hcreate.
      injection Hcreate as Hr _. rewrite Hstored in Hr.
      apply (f_equal (fun p => p !! "post_id")) in Hr.
      rewrite lookup_insert_eq in Hr. vm_compute in Hr. by injection Hr. }
    assert (stored
            = {[ "post_id" := JInt 3;
                 "title" := JStr "Third post";
                 "content" := JStr "This is the third post.";
                 "author" := JStr "Ada";
                 "tags" := JList [JStr "a"; JStr "b"] ]}) as <-.
    { rewrite Hstored. by vm_compute. }
    split; [done|]. by apply (Hsearch "GET" JNull _ "3").
Defined.

(* ===================================================================== *)
(** * Further properties of the handlers *)
(* ===================================================================== *)

(** ** Looking a post up by its id *)

(** Two dicts that are equal have equal values under every key of the
    first. *)
Lemma py_eq_dict_lookup (d1 d2 : post) (k : string) (x : value) :
  py_eq (JDict d1) (JDict d2) = true →
  d1 !! k = Some x →
  ∃ y, d2 !! k = Some y ∧ py_eq x y = true.
Proof.
  simpl. intros [_ Hfold]%andb_prop. revert Hfold k x.
  induction d1 as [|i z m Hi Hfirst IH] using map_first_key_ind.
  - intros _ k x. by rewrite lookup_empty.
  - rewrite map_fold_insert_first_key by done.
    destruct (d2 !! i) as [y|] eqn:Hy; [|done].
    intros [Hz Hfold]%andb_prop k x.
    destruct (decide (i = k)) as [<-|Hne].
    + rewrite lookup_insert_eq. intros [= <-]. eauto.
    + rewrite lookup_insert_ne by done. by apply IH.
Qed.

Lemma py_eq_dict_dom (d1 d2 : post) :
  py_eq (JDict d1) (JDict d2) = true → dom d1 = dom d2.
Proof.
  intros Heq. apply set_subseteq_size_eq.
  - intros k [x Hx]%elem_of_dom.
    destruct (py_eq_dict_lookup _ _ _ _ Heq Hx) as (y & Hy & _).
    apply elem_of_dom. eauto.
  - simpl in Heq. apply andb_prop in Heq as [Hsize%bool_decide_eq_true _].
    rewrite !size_dom. lia.
Qed.

(** What is equal to something equal to the integer [n] is equal to [n]. *)
Lemma py_eq_int_trans (a b : value) (n : Z) :
  py_eq a b = true → py_eq b (JInt n) = true → py_eq a (JInt n) = true.
Proof.
  destruct a, b; simpl; try done;
    rewrite !bool_decide_eq_true; congruence.
Qed.

(** A post equal to a post with the id [n] has the id [n]. *)
Lemma py_eq_dict_has_id (q p : post) (n : Z) :
  py_eq (JDict q) (JDict p) = true → has_id p n = true → has_id q n = true.
Proof.
  intros Heq. unfold has_id.
  destruct (q !! "post_id") as [x|] eqn:Hq.
  - destruct (py_eq_dict_lookup _ _ _ _ Heq Hq) as (y & -> & Hxy).
    by apply py_eq_int_trans.
  - apply not_elem_of_dom in Hq. rewrite (py_eq_dict_dom _ _ Heq) in Hq.
    apply not_elem_of_dom in Hq. by rewrite Hq.
Qed.

(** [remove] takes out of [POSTS] the very post that was found. *)
Lemma list_remove_found (posts : store) (n : Z) i p :
  find_post_by_id posts n = Some (i, p) →
  list_remove p posts = Ok (delete i posts).
Proof.
  revert i. induction posts as [|q posts IH]; intros i; [done|].
  cbn [find_post_by_id list_remove]. destruct (has_id q n) eqn:Hq.
  - intros [= <- <-]. by rewrite py_eq_refl.
  - destruct (find_post_by_id posts n) as [[j r]|] eqn:Hfind; [|done].
    intros [= <- <-]. apply find_post_by_id_Some in Hfind as Hr.
    destruct (py_eq (JDict q) (JDict r)) eqn:Heq.
    + destruct Hr as (_ & Hr & _).
      by rewrite (py_eq_dict_has_id _ _ _ Heq Hr) in Hq.
    + by rewrite (IH j eq_refl).
Qed.

(** The deletion of a post that is found, and of one that is not. *)
Lemma delete_post_found (posts : store) (n : Z) i p :
  find_post_by_id posts n = Some (i, p) →
  delete_post n posts = (Ok (deleted n), delete i posts).
Proof.
  intros Hfind. unfold delete_post. run_monad.
  by rewrite Hfind, (list_remove_found _ _ _ _ Hfind).
Qed.

Lemma delete_post_missing (posts : store) (n : Z) :
  find_post_by_id posts n = None →
  delete_post n posts = (Ok not_found, posts).
Proof. intros Hfind. unfold delete_post. run_monad. by rewrite Hfind. Qed.

(** With integer ids, an id no post has is not found. *)
Lemma find_post_by_id_absent (posts : store) (n : Z) :
  Forall is_Some (post_id_of <$> posts) →
  Some n ∉ post_id_of <$> posts →
  find_post_by_id posts n = None.
Proof.
  induction posts as [|q posts IH]; [done|].
  rewrite fmap_cons, Forall_cons, not_elem_of_cons.
  intros [[k Hk] Hids] [Hne Hn]. simpl.
  rewrite (has_id_post_id_of _ _ _ Hk), bool_decide_eq_false_2, IH; try done.
  intros ->. by rewrite Hk in Hne.
Qed.

(** Keeping the posts with another id than [n] keeps them all when no post
    has the id [n]. *)
Lemma filter_other_ids_absent (posts : store) (n : Z) :
  Some n ∉ post_id_of <$> posts →
  filter (fun q => post_id_of q ≠ Some n) posts = posts.
Proof.
  induction posts as [|q posts IH]; [done|].
  rewrite fmap_cons, not_elem_of_cons. intros [Hne Hn].
  rewrite filter_cons, decide_True, IH by done. done.
Qed.

(** With unique ids, taking the post with the id [n] out of the list is
    keeping the posts with another id. *)
Lemma delete_filter_id (posts : store) (n : Z) i p :
  unique_ids posts →
  posts !! i = Some p → post_id_of p = Some n →
  delete i posts = filter (fun q => post_id_of q ≠ Some n) posts.
Proof.
  intros [_ Hnodup]. revert i.
  induction posts as [|q posts IH]; intros i Hi Hp; [done|].
  rewrite fmap_cons in Hnodup.
  apply NoDup_cons in Hnodup as [Hfresh Hnodup].
  rewrite filter_cons. destruct i as [|i]; simpl in *.
  - simplify_eq. rewrite decide_False by naive_solver.
    symmetry. apply filter_other_ids_absent. by rewrite <-Hp.
  - rewrite decide_True, (IH Hnodup i) by
      (try done; intros Hq; apply Hfresh; rewrite Hq, <-Hp;
       apply list_elem_of_fmap_2; by eapply list_elem_of_lookup_2).
    done.
Qed.

(** ** Deletion *)

(** What a deletion answers and leaves, in a collection with unique ids. *)
Lemma delete_post_unique (posts : store) (n : Z) :
  unique_ids posts →
  delete_post n posts
  = (Ok (if bool_decide (Some n ∈ post_id_of <$> posts)
         then deleted n else not_found),
     filter (fun q => post_id_of q ≠ Some n) posts).
Proof.
  intros Hu. case_bool_decide as Hn.
  - apply list_elem_of_fmap in Hn as (p & Hp & [i Hi]%list_elem_of_lookup).
    rewrite (delete_post_found _ _ i p), (delete_filter_id _ n i p);
      auto using find_post_by_id_unique.
  - rewrite delete_post_missing, filter_other_ids_absent; try done.
    apply find_post_by_id_absent; [apply Hu | done].
Qed.

(** X1. In a collection with unique ids, deleting the id [n] leaves the posts
    with another id, in their order: it takes out the post with the id [n]
    and answers [200] when there is one, and answers [404] with the
    collection as it was when there is none. *)
Theorem delete_post_exactly (posts : store) (n : Z) :
  unique_ids posts →
  (Some n ∈ post_id_of <$> posts →
     delete_post n posts
     = (Ok (deleted n), filter (fun q => post_id_of q ≠ Some n) posts))
  ∧ (Some n ∉ post_id_of <$> posts →
       delete_post n posts = (Ok not_found, posts)).
Proof.
  intros Hu. rewrite delete_post_unique by done. split; intros Hn.
  - by rewrite bool_decide_eq_true_2.
  - by rewrite bool_decide_eq_false_2, filter_other_ids_absent.
Qed.

Lemma delete_post_exactly_witness :
  delete_post 1 POSTS
  = (Ok (deleted 1),
     [ {[ "post_id" := JInt 2; "title" := JStr "Second post";
          "content" := JStr "This is the second post." ]} ])
  ∧ delete_post 7 POSTS = (Ok not_found, POSTS).
Proof.
  assert (unique_ids POSTS) as Hu
    by (apply (bool_decide_unpack _); by vm_compute).
  destruct (delete_post_exactly POSTS 1 Hu) as [Hthere _].
  destruct (delete_post_exactly POSTS 7 Hu) as [_ Hmissing].
  split.
  - rewrite Hthere; [reflexivity|].
    apply (bool_decide_unpack _). by vm_compute.
  - apply Hmissing. apply (bool_decide_unpack _). by vm_compute.
Defined.

(** X2. In a collection with unique ids, deleting the same id a second time
    answers [404] and changes nothing more. *)
Theorem delete_post_twice (posts : store) (n : Z) :
  unique_ids posts →
  delete_post n (delete_post n posts).2
  = (Ok not_found, (delete_post n posts).2).
Proof.
  intros Hu. pose proof (delete_post_unique_ids n posts Hu) as [Hids _].
  apply delete_post_missing, find_post_by_id_absent; [done|].
  rewrite delete_post_unique by done. simpl.
  intros (q & Hq & [Hne _]%list_elem_of_filter)%list_elem_of_fmap.
  by destruct Hne.
Qed.

Lemma delete_post_twice_witness :
  delete_post 2 (delete_post 2 POSTS).2
  = (Ok not_found, (delete_post 2 POSTS).2).
Proof.
  apply (delete_post_twice POSTS 2). apply (bool_decide_unpack _).
  by vm_compute.
Defined.

(** ** Update *)

(** X3. Updating an id that no post has answers [404] and leaves the
    collection as it was, whatever the body: the body is not looked at. *)
Theorem update_post_unknown (posts : store) (n : Z) (req : request) :
  Forall is_Some (post_id_of <$> posts) →
  Some n ∉ post_id_of <$> posts →
  update_post n req posts = (Ok not_found, posts).
Proof.
  intros Hids Hn. unfold update_post. run_monad.
  by rewrite find_post_by_id_absent.
Qed.

Lemma update_post_unknown_witness :
  update_post 7 (Request "PUT" JNull ∅) POSTS = (Ok not_found, POSTS).
Proof.
  apply (update_post_unknown POSTS 7).
  - apply (bool_decide_unpack _). by vm_compute.
  - apply (bool_decide_unpack _). by vm_compute.
Defined.

(** An update answers [404], or raises, or answers [200]; only then can
    the collection have changed, and only for a body that is an object. *)
Lemma update_post_cases (posts : store) (n : Z) (req : request) :
  update_post n req posts = (Ok not_found, posts)
  ∨ (∃ e, update_post n req posts = (Raise e, posts))
  ∨ (∃ posts', update_post n req posts = (Ok (updated n), posts')
               ∧ (is_object (get_json req) = false → posts' = posts)).
Proof.
  destruct (find_post_by_id posts n) as [[i p]|] eqn:Hfind.
  - destruct req as [m body a]. destruct body as [| | |s|l|data].
    6: { do 2 right. rewrite (update_post_dict _ _ _ _ _ _ _ Hfind).
         eexists. split; [done|]. done. }
    all: unfold update_post; run_monad; rewrite Hfind; simpl; eauto.
    all: repeat (case_match; simplify_eq/=); eauto.
  - left. unfold update_post. run_monad. by rewrite Hfind.
Qed.

Lemma update_post_not_object_store (posts : store) (n : Z) (req : request) :
  is_object (get_json req) = false →
  (update_post n req posts).2 = posts.
Proof.
  intros Hbody.
  destruct (update_post_cases posts n req)
    as [->|[[e ->]|(posts' & -> & Hposts')]]; auto.
Qed.

(** X4. An update with a body that is not a JSON object never changes the
    collection: it answers [404], raises, or answers [200] without having
    written anything; and with a body that is null, a number or a boolean
    it raises [TypeError] as soon as the post is found. *)
Theorem update_post_not_object (posts : store) (n : Z) (req : request) :
  is_object (get_json req) = false →
  (update_post n req posts).2 = posts
  ∧ (is_container (get_json req) = false →
     is_Some (find_post_by_id posts n) →
     (update_post n req posts).1 = Raise TypeError).
Proof.
  intros Hbody. split; [by apply update_post_not_object_store|].
  intros Hscalar [[i p] Hfind]. unfold update_post. run_monad.
  rewrite Hfind. simpl. by destruct (get_json req).
Qed.

Lemma update_post_not_object_witness :
  (update_post 1 (Request "PUT" (JList [JStr "title"]) ∅) POSTS).2 = POSTS.
Proof. by apply (update_post_not_object POSTS 1). Defined.

(** ** What changes the collection *)

(** X5. A request changes the collection only when it is a creation answered
    [201], a deletion answered [200] or an update answered [200]: a request
    that raises, one answered [400], [404] or [409], a listing and a search
    leave it as it was. *)
Theorem serve_changes_on_success (c : call) (posts : store) :
  (serve c posts).2 ≠ posts →
  ∃ r, (serve c posts).1 = Ok r
       ∧ ((∃ req, c = Posts req ∧ method req = "POST" ∧ status r = 201)
          ∨ (∃ n, c = Delete n ∧ status r = 200)
          ∨ (∃ n req, c = Update n req ∧ status r = 200)).
Proof.
  destruct c as [req|n|n req|req]; simpl.
  - unfold get_posts. case_bool_decide as Hm.
    + destruct (create_post_cases (get_json req) posts)
        as [[e ->]|[->|[->|(data & new_id & _ & _ & _ & _ & ->)]]];
        try done.
      intros _. eexists. split; [done|]. left. by exists req.
    + by rewrite list_posts_store.
  - unfold delete_post. run_monad.
    destruct (find_post_by_id posts n) as [[i p]|]; simpl; [|done].
    destruct (list_remove p posts); simpl; [|done].
    intros _. eexists. split; [done|]. right. left. by exists n.
  - destruct (update_post_cases posts n req)
      as [->|[[e ->]|(posts' & -> & _)]]; try done.
    intros _. eexists. split; [done|]. right. right. by exists n, req.
  - by rewrite post_search_store.
Qed.

Lemma serve_changes_on_success_witness :
  ∃ r, (serve (Delete 1) POSTS).1 = Ok r
       ∧ ((∃ req, Delete 1 = Posts req ∧ method req = "POST"
                  ∧ status r = 201)
          ∨ (∃ n, Delete 1 = Delete n ∧ status r = 200)
          ∨ (∃ n req, Delete 1 = Update n req ∧ status r = 200)).
Proof.
  apply serve_changes_on_success.
  intros Heq. apply (f_equal length) in Heq. by vm_compute in Heq.
Defined.

(** Writing on a post other keys than "post_id" does not move the posts
    found by their id. *)
Lemma find_post_by_id_alter (posts : store) (n : Z) (f : post → post) i :
  (∀ p, f p !! "post_id" = p !! "post_id") →
  fst <$> find_post_by_id (alter f i posts) n
  = fst <$> find_post_by_id posts n.
Proof.
  intros Hf. assert (∀ p, has_id (f p) n = has_id p n) as Hid.
  { intros p. unfold has_id. by rewrite Hf. }
  revert i. induction posts as [|q posts IH]; intros i; [done|].
  destruct i as [|i]; cbn [alter list_alter find_post_by_id].
  - rewrite Hid. by destruct (has_id q n).
  - destruct (has_id q n); [done|]. specialize (IH i).
    destruct (find_post_by_id (alter f i posts) n) as [[j r]|],
      (find_post_by_id posts n) as [[j' r']|]; by simplify_eq/=.
Qed.

(** X6. The same update made twice answers the second time what it answered
    the first time and leaves the collection as the first left it. *)
Theorem update_post_twice (posts : store) (n : Z) (req : request) :
  update_post n req (update_post n req posts).2 = update_post n req posts.
Proof.
  destruct (find_post_by_id posts n) as [[i p]|] eqn:Hfind.
  - destruct req as [m body a]. destruct body as [| | |s|l|data].
    6: { rewrite (update_post_dict _ _ _ _ _ _ _ Hfind). simpl.
         match goal with
         | |- update_post _ _ (alter ?f _ _) = _ =>
             pose proof (find_post_by_id_alter posts n f i) as Hi
         end.
         rewrite Hfind in Hi.
         destruct (find_post_by_id (alter _ i posts) n) as [[j r]|] eqn:Hfind';
           [|discriminate Hi;
             intros q; destruct (data !! "title"), (data !! "content");
             simpl; by rewrite ?lookup_insert_ne].
         assert (j = i) as ->.
         { assert (Some j = Some i) as [=]; [|done]. apply Hi.
           intros q. destruct (data !! "title"), (data !! "content"); simpl;
             by rewrite ?lookup_insert_ne. }
         rewrite (update_post_dict _ _ _ _ _ _ _ Hfind').
         f_equal. rewrite list_alter_alter_eq. apply list_alter_ext; [|done].
         intros q _. simpl.
         destruct (data !! "title"), (data !! "content"); simpl;
           apply map_eq; intros k; rewrite ?lookup_insert;
           repeat case_decide; simplify_eq; done. }
    all: assert ((update_post n (Request m _ a) posts).2 = posts) as ->
      by (by apply update_post_not_object_store); done.
  - assert ((update_post n req posts).2 = posts) as ->; [|done].
    unfold update_post. run_monad. by rewrite Hfind.
Qed.

(** X7. The guard against duplicates is in the creation alone: in a collection
    with unique ids, an update can give a post the title and the content
    of another post; it answers [200], and the two posts then have the
    same title and the same content. *)
Theorem update_post_allows_duplicate (posts : store) (X : Z) (m : string)
    (a : gmap string string) (i j : nat) (p q : post) (t c : value) :
  unique_ids posts →
  posts !! i = Some p → posts !! j = Some q → i ≠ j →
  post_id_of q = Some X →
  p !! "title" = Some t → p !! "content" = Some c →
  ∃ (posts' : store) (q' : post),
    update_post X (Request m (JDict {[ "title" := t; "content" := c ]}) a)
      posts
    = (Ok (updated X), posts')
    ∧ posts' !! i = Some p
    ∧ posts' !! j = Some q'
    ∧ q' !! "title" = Some t ∧ q' !! "content" = Some c
    ∧ post_id_of q' = Some X.
Proof.
  intros Hu Hi Hj Hne HX Ht Hc.
  rewrite (update_post_dict _ _ _ _ _ _ _
             (find_post_by_id_unique _ _ _ _ Hu Hj HX)).
  eexists _, _. split; [done|].
  rewrite list_lookup_alter_ne, list_lookup_alter_eq, Hj by done. simpl.
  assert (({[ "title" := t; "content" := c ]} : post) !! "title" = Some t)
    as -> by reflexivity.
  assert (({[ "title" := t; "content" := c ]} : post) !! "content" = Some c)
    as -> by reflexivity.
  simpl. repeat split; try done.
  - by rewrite lookup_insert_ne, lookup_insert_eq.
  - by rewrite lookup_insert_eq.
  - unfold post_id_of in *. by rewrite !lookup_insert_ne.
Qed.

Lemma update_post_allows_duplicate_witness :
  ∃ (posts' : store) (q' : post),
    update_post 2
      (Request "PUT"
         (JDict {[ "title" := JStr "First post";
                   "content" := JStr "This is the first post." ]}) ∅)
      POSTS
    = (Ok (updated 2), posts')
    ∧ posts' !! 0%nat = POSTS !! 0%nat
    ∧ posts' !! 1%nat = Some q'
    ∧ q' !! "title" = Some (JStr "First post")
    ∧ q' !! "content" = Some (JStr "This is the first post.")
    ∧ post_id_of q' = Some 2.
Proof.
  apply (update_post_allows_duplicate POSTS 2 "PUT" ∅ 0 1 _
           {[ "post_id" := JInt 2; "title" := JStr "Second post";
              "content" := JStr "This is the second post." ]}).
  - apply (bool_decide_unpack _). by vm_compute.
  - reflexivity.
  - reflexivity.
  - done.
  - reflexivity.
  - reflexivity.
  - reflexivity.
Defined.

(** ** Creation *)

(** X8. A creation with a body that is not a JSON object stores nothing and
    never answers [201] or [409]: it answers the validation error or
    raises; and a body that is null, a number or a boolean raises
    [TypeError] at the first test. *)
Theorem create_post_not_object (posts : store) (new_post : value) :
  is_object new_post = false →
  (create_post new_post posts).2 = posts
  ∧ ((create_post new_post posts).1 = Ok validation_error
     ∨ ∃ e, (create_post new_post posts).1 = Raise e)
  ∧ (is_container new_post = false →
     (create_post new_post posts).1 = Raise TypeError).
Proof.
  intros Hbody.
  destruct (create_post_cases new_post posts)
    as [[e He]|[He|[He|(data & new_id & -> & _)]]]; [| | |done].
  - rewrite He. repeat split; eauto.
    intros Hscalar. rewrite create_post_eq in He.
    by destruct new_post; simplify_eq/=.
  - rewrite He. repeat split; eauto.
    intros Hscalar. rewrite create_post_eq in He.
    by destruct new_post; simplify_eq/=.
  - exfalso. rewrite create_post_eq in He.
    destruct (validate_post_data new_post) as [[]|]; simplify_eq/=.
    destruct posts as [|existing posts]; simpl in He.
    + by destruct new_post.
    + destruct (existing !! "title"); simpl in He; [|done].
      by destruct new_post.
Qed.

Lemma create_post_not_object_witness :
  (create_post (JList [JStr "title"; JStr "content"]) POSTS).2 = POSTS
  ∧ ((create_post (JList [JStr "title"; JStr "content"]) POSTS).1
     = Ok validation_error
     ∨ ∃ e, (create_post (JList [JStr "title"; JStr "content"]) POSTS).1
            = Raise e)
  ∧ (is_container (JList [JStr "title"; JStr "content"]) = false →
     (create_post (JList [JStr "title"; JStr "content"]) POSTS).1
     = Raise TypeError).
Proof. by apply create_post_not_object. Defined.

(** X9. A creation answers [201] only on a collection that is not empty, and
    the id it assigns is an integer that no post of the collection has,
    whatever the ids there: the new post comes last and the others stay. *)
Theorem create_post_fresh_id (posts posts' : store) (new_post : value)
    (r : response) :
  create_post new_post posts = (Ok r, posts') →
  status r = 201 →
  posts ≠ []
  ∧ ∃ (n : Z) (data : post),
      new_post = JDict data
      ∧ r = created (<["post_id" := JInt n]> data)
      ∧ posts' = (posts ++ [<["post_id" := JInt n]> data])%list
      ∧ find_post_by_id posts n = None
      ∧ find_post_by_id posts' n
        = Some (length posts, <["post_id" := JInt n]> data).
Proof.
  intros Hcreate Hstatus.
  destruct (create_post_cases new_post posts)
    as [[e He]|[He|[He|(data & new_id & -> & _ & _ & Hnext & He)]]];
    rewrite He in Hcreate; simplify_eq/=.
  destruct (next_id_fresh _ _ Hnext) as (n & -> & Hfresh).
  split; [by intros ->|]. exists n, data. repeat split; try done.
  - by destruct (find_post_by_id posts n) as [[i p]|] eqn:Hfind;
      [apply find_post_by_id_Some in Hfind as (Hp & Hid & _);
       eapply Forall_forall in Hfresh;
       [|by eapply list_elem_of_lookup_2]; congruence|].
  - rewrite (find_post_by_id_app _ _ _ Hfresh). simpl.
    unfold has_id. rewrite lookup_insert_eq, py_eq_refl. simpl.
    by rewrite Nat.add_0_r.
Qed.

Lemma create_post_fresh_id_witness :
  POSTS ≠ []
  ∧ ∃ (n : Z) (data : post),
      JDict {[ "title" := JStr "Third post";
               "content" := JStr "This is the third post." ]} = JDict data
      ∧ created {[ "post_id" := JInt 3; "title" := JStr "Third post";
                   "content" := JStr "This is the third post." ]}
        = created (<["post_id" := JInt n]> data)
      ∧ (POSTS ++ [ {[ "post_id" := JInt 3; "title" := JStr "Third post";
                       "content" := JStr "This is the third post." ]} ])%list
        = (POSTS ++ [<["post_id" := JInt n]> data])%list
      ∧ find_post_by_id POSTS n = None
      ∧ find_post_by_id
          (POSTS ++ [ {[ "post_id" := JInt 3; "title" := JStr "Third post";
                         "content" := JStr "This is the third post." ]} ])%list
          n
        = Some (length POSTS, <["post_id" := JInt n]> data).
Proof.
  apply (create_post_fresh_id POSTS _
           (JDict {[ "title" := JStr "Third post";
                     "content" := JStr "This is the third post." ]})).
  - by vm_compute.
  - reflexivity.
Defined.

(** X10. Creating a post and deleting the id answered gives back the collection
    as it was before the two requests. *)
Theorem create_then_delete (posts posts' : store) (data : post)
    (r : response) :
  create_post (JDict data) posts = (Ok r, posts') →
  status r = 201 →
  ∃ n : Z,
    r = created (<["post_id" := JInt n]> data)
    ∧ delete_post n posts' = (Ok (deleted n), posts).
Proof.
  intros Hcreate Hstatus.
  destruct (create_post_cases (JDict data) posts)
    as [[e He]|[He|[He|(data' & new_id & [= <-] & _ & _ & Hnext & He)]]];
    rewrite He in Hcreate; simplify_eq/=.
  destruct (next_id_fresh _ _ Hnext) as (n & -> & Hfresh).
  exists n. split; [done|].
  rewrite (delete_post_found _ _ (length posts) (<["post_id" := JInt n]> data)).
  - f_equal. rewrite delete_take_drop, take_app_length.
    rewrite drop_ge by (rewrite length_app; simpl; lia). apply app_nil_r.
  - rewrite (find_post_by_id_app _ _ _ Hfresh). simpl.
    unfold has_id. rewrite lookup_insert_eq, py_eq_refl. simpl.
    by rewrite Nat.add_0_r.
Qed.

Lemma create_then_delete_witness :
  ∃ n : Z,
    created {[ "post_id" := JInt 3; "title" := JStr "Third post";
               "content" := JStr "This is the third post." ]}
    = created (<["post_id" := JInt n]>
                 {[ "title" := JStr "Third post";
                    "content" := JStr "This is the third post." ]})
    ∧ delete_post n
        (POSTS ++ [ {[ "post_id" := JInt 3; "title" := JStr "Third post";
                       "content" := JStr "This is the third post." ]} ])%list
      = (Ok (deleted n), POSTS).
Proof.
  apply (create_then_delete POSTS).
  - by vm_compute.
  - reflexivity.
Defined.

(** ** The keys of the posts *)

(** X11. No request takes the title or the content off a post: from a
    collection where every post has both keys, every sequence of requests
    leads to a collection where every post has both keys. *)
Theorem run_has_fields (calls : list call) (posts : store) :
  has_fields posts → has_fields (run calls posts).
Proof.
  revert posts. induction calls as [|c calls IH]; intros posts Hf; [done|].
  simpl. by apply IH, serve_has_fields.
Qed.

Lemma run_has_fields_witness :
  has_fields
    (run [ Update 1 (Request "PUT" (JDict {[ "title" := JNull ]}) ∅);
           Posts (Request "POST"
                    (JDict {[ "title" := JInt 5; "content" := JStr "" ]}) ∅);
           Delete 2 ]
         POSTS).
Proof.
  apply run_has_fields. apply (bool_decide_unpack _). by vm_compute.
Defined.

(** ** Looking a post up *)

(** X12. [find_post_by_id] answers the first post of [POSTS] whose "post_id" is
    equal to the id, passing over the posts without that key, and [None]
    exactly when no post has the id. *)
Theorem find_post_by_id_first (posts : store) (n : Z) :
  (∀ i p, find_post_by_id posts n = Some (i, p)
          ↔ posts !! i = Some p ∧ has_id p n = true
            ∧ ∀ j q, (j < i)%nat → posts !! j = Some q → has_id q n = false)
  ∧ (find_post_by_id posts n = None
     ↔ ∀ q, q ∈ posts → has_id q n = false).
Proof.
  assert (find_post_by_id posts n = None
          ↔ ∀ q, q ∈ posts → has_id q n = false) as Hnone.
  { induction posts as [|q posts IH]; simpl.
    - split; [|done]. by intros _ q ?%elem_of_nil.
    - destruct (has_id q n) eqn:Hq.
      + split; [done|]. intros Hall. rewrite Hall in Hq; [done | by left].
      + destruct (find_post_by_id posts n) as [[]|]; simpl.
        * split; [done|]. intros Hall.
          destruct IH as [_ IH]. discriminate IH.
          intros r Hr. apply Hall. by right.
        * split; [|done]. intros _ r [->|Hr]%elem_of_cons; [done|].
          by apply IH. }
  split; [|done]. intros i p. split; [apply find_post_by_id_Some|].
  intros (Hi & Hp & Hfirst).
  destruct (find_post_by_id posts n) as [[j r]|] eqn:Hfind.
  - apply find_post_by_id_Some in Hfind as (Hj & Hr & Hfirst').
    destruct (Nat.lt_trichotomy i j) as [Hlt|[->|Hlt]].
    + rewrite (Hfirst' _ _ Hlt Hi) in Hp. done.
    + by simplify_eq.
    + rewrite (Hfirst _ _ Hlt Hj) in Hr. done.
  - destruct Hnone as [Hnone _]. rewrite Hnone in Hp; [done|..]; [done|].
    by eapply list_elem_of_lookup_2.
Qed.

(** ** Listing *)

(** X13. A listing asked to sort on a field that is neither "title" nor
    "content" answers [400] naming the field, whatever the direction asked
    for, and does not list. *)
Theorem list_posts_invalid_field (posts : store) (field : string)
    (direction : option string) :
  field ≠ "" → is_valid_sort_field field = false →
  list_posts (Some field) direction posts
  = (Ok (invalid_sort_field field), posts).
Proof.
  intros Hne Hinvalid. unfold list_posts. simpl.
  rewrite Hinvalid. by destruct field.
Qed.

Lemma list_posts_invalid_field_witness :
  list_posts (Some "date") (Some "up") POSTS
  = (Ok (invalid_sort_field "date"), POSTS).
Proof. by apply list_posts_invalid_field. Defined.

(** X14. A listing asked for a direction that is neither "asc" nor "desc"
    answers [400] naming the direction, the sort field being absent, empty
    or valid. *)
Theorem list_posts_invalid_direction (posts : store) (field : option string)
    (direction : string) :
  arg_truthy field = false ∨ from_option is_valid_sort_field false field = true →
  direction ≠ "" → is_valid_sort_direction direction = false →
  list_posts field (Some direction) posts
  = (Ok (invalid_sort_direction direction), posts).
Proof.
  intros Hfield Hne Hinvalid. unfold list_posts. simpl.
  rewrite Hinvalid.
  assert (arg_truthy field
          && negb (from_option is_valid_sort_field false field) = false) as ->.
  { destruct Hfield as [-> | ->]; [done | apply andb_false_r]. }
  by destruct direction.
Qed.

Lemma list_posts_invalid_direction_witness :
  list_posts (Some "title") (Some "down") POSTS
  = (Ok (invalid_sort_direction "down"), POSTS).
Proof.
  apply list_posts_invalid_direction; [by right | done | done].
Defined.

(** X15. Without a sort field (absent or empty) the listing answers the posts in
    the order of the collection; a direction, when valid, changes nothing,
    "desc" included. *)
Theorem list_posts_unsorted (posts : store) (field direction : option string) :
  arg_truthy field = false →
  arg_truthy direction = false
  ∨ from_option is_valid_sort_direction false direction = true →
  list_posts field direction posts = (Ok (ok_posts posts), posts).
Proof.
  intros Hfield Hdir. unfold list_posts. rewrite Hfield. simpl.
  assert (arg_truthy direction
          && negb (from_option is_valid_sort_direction false direction)
          = false) as ->.
  { destruct Hdir as [-> | ->]; [done | apply andb_false_r]. }
  run_monad. unfold sort_posts.
  by destruct field as [[|??]|].
Qed.

Lemma list_posts_unsorted_witness :
  list_posts None (Some "desc") POSTS = (Ok (ok_posts POSTS), POSTS).
Proof. apply list_posts_unsorted; [done | by right]. Defined.

(** ** Sorted listings *)

Lemma string_ltb_leb (a b : string) :
  String.ltb a b = true → String.leb a b = true.
Proof. unfold String.ltb, String.leb. by destruct (String.compare a b). Qed.

Lemma string_not_ltb_leb (a b : string) :
  String.ltb a b = false → String.leb b a = true.
Proof.
  unfold String.ltb, String.leb. rewrite (String.compare_antisym a b).
  by destruct (String.compare b a).
Qed.

Section sorted_text.
Context {A : Type} (txt : A → string).
Implicit Types (x y z : value * A) (l r : list (value * A)).

(** The keys are the texts of the items, and the order is on the texts. *)
Local Abbreviation keyed := (Forall (fun y : value * A => y.1 = JStr (txt y.2))).
Local Abbreviation le :=
  (fun y z : value * A => String.leb (txt y.2) (txt z.2) = true).

Lemma insert_sorted_text x l :
  x.1 = JStr (txt x.2) → keyed l → Sorted le l →
  ∃ r, insert_sorted x l = Ok r ∧ Sorted le r
       ∧ ∀ z, le z x → HdRel le z l → HdRel le z r.
Proof.
  intros Hx Hl Hsorted. induction Hl as [|y l Hy Hl IH]; simpl.
  - exists [x]. repeat split; [by repeat constructor|].
    intros z Hz _. by constructor.
  - rewrite Hy, Hx. simpl. apply Sorted_inv in Hsorted as [Hsorted Hhd].
    destruct (String.ltb (txt y.2) (txt x.2)) eqn:Hlt.
    + destruct (IH Hsorted) as (r & -> & Hr & Hhead). simpl.
      exists (y :: r). repeat split.
      * constructor; [done|]. apply Hhead; [|done].
        by apply string_ltb_leb.
      * intros z _ Hz. apply HdRel_inv in Hz. by constructor.
    + exists (x :: y :: l). repeat split.
      * constructor; [by constructor|]. constructor.
        by apply string_not_ltb_leb.
      * intros z Hz _. by constructor.
Qed.

Lemma sort_keyed_text l :
  keyed l → ∃ r, sort_keyed l = Ok r ∧ Sorted le r.
Proof.
  intros Hl. induction Hl as [|x l Hx Hl IH]; simpl.
  - exists []. by repeat constructor.
  - destruct IH as (r & Hr & Hsorted). rewrite Hr. simpl.
    assert (keyed r) as Hkeyed.
    { by rewrite (sort_keyed_perm _ _ Hr). }
    destruct (insert_sorted_text x r Hx Hkeyed Hsorted) as (r' & ? & ? & _).
    eauto.
Qed.

End sorted_text.

Lemma with_keys_text (field : string) (posts : store) :
  text_field field posts →
  with_keys (fun p => getitem (JDict p) field) posts
  = Ok ((fun p => (JStr (text_of field p), p)) <$> posts).
Proof.
  induction 1 as [|p posts [s Hs] _ IH]; [done|].
  cbn [with_keys]. rewrite IH. simpl. rewrite Hs. simpl.
  unfold text_of. by rewrite Hs.
Qed.

(** X16. On posts whose [field] is text, ["title"] or ["content"], the listing
    sorted on [field] answers all the posts, each once, in an order where
    the texts never decrease, under the direction "asc" and under no
    direction; under "desc" it answers them in the reverse order, where the
    texts never increase. *)
Theorem list_posts_sorted (posts : store) (field : string) :
  is_valid_sort_field field = true →
  text_field field posts →
  ∃ asc : list post,
    list_posts (Some field) (Some "asc") posts = (Ok (ok_posts asc), posts)
    ∧ list_posts (Some field) None posts = (Ok (ok_posts asc), posts)
    ∧ list_posts (Some field) (Some "desc") posts
      = (Ok (ok_posts (reverse asc)), posts)
    ∧ asc ≡ₚ posts
    ∧ Sorted (fun p q => String.leb (text_of field p) (text_of field q)
                         = true) asc
    ∧ Sorted (fun p q => String.leb (text_of field q) (text_of field p)
                         = true) (reverse asc).
Proof.
  intros Hvalid Htext.
  destruct (sort_keyed_text (text_of field)
              ((fun p => (JStr (text_of field p), p)) <$> posts))
    as (r & Hr & Hsorted).
  { apply Forall_fmap, Forall_forall. by intros p _. }
  assert (sorted (fun p => getitem (JDict p) field) posts = Ok r.*2) as Hs.
  { unfold sorted. by rewrite (with_keys_text _ _ Htext); simpl; rewrite Hr. }
  assert (Sorted (fun p q => String.leb (text_of field p) (text_of field q)
                             = true) r.*2) as Hasc.
  { by apply (Sorted_fmap snd
                (fun y z => String.leb (text_of field y.2) (text_of field z.2)
                            = true)). }
  exists r.*2.
  assert (arg_truthy (Some field) = true) as Htruthy.
  { by destruct (is_valid_sort_field_inv _ Hvalid) as [->| ->]. }
  unfold list_posts. rewrite Htruthy. simpl. rewrite Hvalid. simpl.
  run_monad. unfold sort_posts.
  repeat split.
  1-3: by destruct (is_valid_sort_field_inv _ Hvalid) as [->| ->]; simpl;
       rewrite Hs.
  - rewrite (sort_keyed_perm _ _ Hr), <-list_fmap_compose.
    by rewrite list_fmap_id.
  - done.
  - by apply Sorted_reverse in Hasc.
Qed.

Lemma list_posts_sorted_witness :
  ∃ asc : list post,
    list_posts (Some "title") (Some "asc") POSTS = (Ok (ok_posts asc), POSTS)
    ∧ list_posts (Some "title") None POSTS = (Ok (ok_posts asc), POSTS)
    ∧ list_posts (Some "title") (Some "desc") POSTS
      = (Ok (ok_posts (reverse asc)), POSTS)
    ∧ asc ≡ₚ POSTS
    ∧ Sorted (fun p q => String.leb (text_of "title" p) (text_of "title" q)
                         = true) asc
    ∧ Sorted (fun p q => String.leb (text_of "title" q) (text_of "title" p)
                         = true) (reverse asc).
Proof.
  apply (list_posts_sorted POSTS "title"); [reflexivity|].
  unfold text_field, POSTS. repeat constructor; eexists; reflexivity.
Defined.

(** ** Searching on the content *)

Lemma string_prefix_spec (needle hay : string) :
  String.prefix needle hay = true ↔ ∃ b, hay = needle +:+ b.
Proof.
  revert hay. induction needle as [|c needle IH]; intros hay.
  - split; [by exists hay | by destruct hay].
  - destruct hay as [|c' hay]; simpl.
    + split; [done | by intros [b [=]]].
    + destruct (Ascii.ascii_dec c c') as [->|Hne].
      * rewrite IH. split; intros [b Hb]; exists b; simpl in *;
          [by rewrite Hb | by injection Hb].
      * split; [done|]. intros [b Hb]. simpl in Hb. by injection Hb.
Qed.

(** [needle in hay] is: [hay] is some text, then [needle], then some
    text. *)
Lemma contains_spec (needle hay : string) :
  contains needle hay = true ↔ ∃ a b, hay = a +:+ needle +:+ b.
Proof.
  induction hay as [|c hay IH].
  - rewrite contains_empty_hay, bool_decide_eq_true. split.
    + intros ->. by exists "", "".
    + intros (a & b & Hab). destruct a; [by destruct needle|done].
  - cbn [contains]. rewrite orb_true_iff, string_prefix_spec, IH. split.
    + intros [[b Hb]|(a & b & Hab)].
      * by exists "", b.
      * exists (String c a), b. simpl. by rewrite Hab.
    + intros ([|c' a] & b & Hab); simpl in Hab.
      * left. by exists b.
      * right. injection Hab as -> Hab. by exists a, b.
Qed.

(** X17. A search with a content that is not empty, and neither id nor title,
    answers the posts whose content holds the needle as a substring, in
    the order of the collection (the posts holding text). *)
Theorem post_search_content (posts : store) (m : string) (j : value)
    (a : gmap string string) (needle : string) :
  arg_truthy (a !! "post_id") = false →
  arg_truthy (a !! "title") = false →
  a !! "content" = Some needle → needle ≠ "" →
  text_fields posts →
  ∃ l, post_search (Request m j a) posts = (Ok (ok_posts l), posts)
       ∧ l `sublist_of` posts
       ∧ ∀ p, p ∈ l
              ↔ p ∈ posts
                ∧ ∃ hay before after,
                    p !! "content" = Some (JStr hay)
                    ∧ hay = before +:+ needle +:+ after.
Proof.
  intros Hid Htitle Hcontent Hne Htext.
  exists (filter (fun p => field_contains "content" needle p) posts).
  split; [|split].
  - unfold post_search. run_monad. rewrite Hid, Htitle, Hcontent. simpl.
    destruct needle as [|c needle]; [done|]. simpl.
    rewrite (comprehension_text "content" (String c needle)); [done| |done].
    by eapply Forall_impl; [exact Htext | intros ? []].
  - apply sublist_filter.
  - intros p. rewrite list_elem_of_filter. unfold field_contains.
    split.
    + intros [Hp ?]. split; [done|].
      destruct (p !! "content") as [[| | |hay| |]|]; try done.
      apply Is_true_eq_true, contains_spec in Hp as (before & after & ->).
      eauto.
    + intros [? (hay & before & after & -> & ->)]. split; [|done].
      apply Is_true_eq_left, contains_spec. eauto.
Qed.

Lemma post_search_content_witness :
  ∃ l, post_search (Request "GET" JNull {[ "content" := "second" ]}) POSTS
       = (Ok (ok_posts l), POSTS)
       ∧ l `sublist_of` POSTS
       ∧ ∀ p, p ∈ l
              ↔ p ∈ POSTS
                ∧ ∃ hay before after,
                    p !! "content" = Some (JStr hay)
                    ∧ hay = before +:+ "second" +:+ after.
Proof.
  apply post_search_content; try done.
  apply (bool_decide_unpack _). by vm_compute.
Defined.

(** A list comprehension raises [TypeError] when the test raises it on an
    item and raises nothing else. *)
Lemma comprehension_raises (test : post → result bool) (posts : store) p :
  (∀ q e, test q = Raise e → e = TypeError) →
  p ∈ posts → test p = Raise TypeError →
  comprehension test posts = Raise TypeError.
Proof.
  intros Honly Hp Htest. induction posts as [|q posts IH]; simpl.
  - by apply elem_of_nil in Hp.
  - destruct (test q) as [b|e] eqn:Hq; simpl.
    + apply elem_of_cons in Hp as [->|Hp]; [congruence|].
      by rewrite IH.
    + by rewrite (Honly _ _ Hq).
Qed.

(** X18. Validation asks for no text: once a post holds a content that is null,
    a number or a boolean, every search on a content that is not empty
    (without id) raises [TypeError] instead of answering. *)
Theorem post_search_content_raises (posts : store) (m : string) (j : value)
    (a : gmap string string) (needle : string) (p : post) (v : value) :
  arg_truthy (a !! "post_id") = false →
  a !! "content" = Some needle → needle ≠ "" →
  p ∈ posts → p !! "content" = Some v → is_container v = false →
  post_search (Request m j a) posts = (Raise TypeError, posts).
Proof.
  intros Hid Hcontent Hne Hp Hv Hscalar.
  unfold post_search. run_monad. rewrite Hid, Hcontent. simpl.
  destruct needle as [|c needle]; [done|]. simpl.
  rewrite (comprehension_raises _ posts p); [done| |done|].
  - intros q e. by destruct (dict_get q "content" (JStr "")); intros [=].
  - unfold dict_get. rewrite Hv. by destruct v.
Qed.

Lemma post_search_content_raises_witness :
  (create_post (JDict {[ "title" := JStr "n"; "content" := JInt 5 ]}) POSTS).1
  = Ok (created {[ "post_id" := JInt 3; "title" := JStr "n";
                   "content" := JInt 5 ]})
  ∧ post_search (Request "GET" JNull {[ "content" := "post" ]})
      (create_post (JDict {[ "title" := JStr "n"; "content" := JInt 5 ]})
         POSTS).2
    = (Raise TypeError,
       (create_post (JDict {[ "title" := JStr "n"; "content" := JInt 5 ]})
          POSTS).2).
Proof.
  split; [by vm_compute|].
  apply (post_search_content_raises _ "GET" JNull _ "post"
           {[ "post_id" := JInt 3; "title" := JStr "n";
              "content" := JInt 5 ]} (JInt 5)); try done.
  vm_compute. do 2 right. left.
Defined.

(** ** Reading back what was written *)

(** X19. In a collection with unique ids, after the update of the post with id
    [X] with a new title, the search on the id [X] answers that post alone,
    with the new title and the rest as before. *)
Theorem update_then_search (posts : store) (X : Z) (m m' : string)
    (a a' : gmap string string) (j : value) (s : string) (i : nat) (p : post)
    (T : value) :
  unique_ids posts →
  posts !! i = Some p → post_id_of p = Some X →
  a' !! "post_id" = Some s → py_int s = Ok X →
  post_search (Request m' j a')
    (update_post X (Request m (JDict {[ "title" := T ]}) a) posts).2
  = (Ok (ok_posts [<["title" := T]> p]),
     (update_post X (Request m (JDict {[ "title" := T ]}) a) posts).2).
Proof.
  intros Hu Hi Hp Ha' Hs.
  assert (unique_ids
            (update_post X (Request m (JDict {[ "title" := T ]}) a) posts).2)
    as Hu'.
  { unfold unique_ids. by rewrite update_post_ids. }
  rewrite (post_search_by_id _ _ _ _ _ _ Ha' Hs), find_post_by_id_filter.
  rewrite (find_post_by_id_unique _ X i (<["title" := T]> p) Hu'); [done| |].
  - rewrite (update_post_dict _ _ _ _ _ _ _
               (find_post_by_id_unique _ _ _ _ Hu Hi Hp)).
    simpl. by rewrite list_lookup_alter_eq, Hi.
  - unfold post_id_of in *. by rewrite lookup_insert_ne.
Qed.

Lemma update_then_search_witness :
  post_search (Request "GET" JNull {[ "post_id" := "2" ]})
    (update_post 2 (Request "PUT" (JDict {[ "title" := JStr "T" ]}) ∅)
       POSTS).2
  = (Ok (ok_posts
           [ <["title" := JStr "T"]>
               {[ "post_id" := JInt 2; "title" := JStr "Second post";
                  "content" := JStr "This is the second post." ]} ]),
     (update_post 2 (Request "PUT" (JDict {[ "title" := JStr "T" ]}) ∅)
        POSTS).2).
Proof.
  apply (update_then_search POSTS 2 "PUT" "GET" ∅ _ JNull "2" 1).
  - apply (bool_decide_unpack _). by vm_compute.
  - reflexivity.
  - reflexivity.
  - reflexivity.
  - reflexivity.
Defined.
